(** * DataBreachAnalytics: the filtering and aggregation pipeline

    A shallow embedding of the data handling of the Streamlit dashboard
    ([Home.py], [app.py], [pages/1_Timeline_Analysis.py],
    [pages/2_Data_Classes_Analysis.py]).  A pandas [DataFrame] is a list of
    rows in index order, a boolean-mask selection [df[mask]] is [filter], a
    column is [map] of a field.  Python exceptions are values of [exn] and
    code that can raise lives in the error monad [result].  A binary64
    number is the rational it denotes, and the operations behind the
    displayed percentage columns round to 53 significant bits; the overview
    shares and the yearly average are kept as exact quotients.  Where the
    behaviour of pandas depends on its version, the version or the freedom
    it leaves is a parameter. *)

From Stdlib Require Import ZArith QArith Qabs Lqa List String Bool Lia Sorted
  Permutation Arith.
Import ListNotations.

Local Open Scope string_scope.
Local Open Scope Z_scope.

(** ** Exceptions *)

Inductive exn : Set :=
| IndexError          (* [.iloc[0]] on an empty frame *)
| ValueError          (* [astype(int)] on NaN, [idxmax] of an empty column,
                         a boolean mask holding NaN *)
| ZeroDivisionError   (* Python [int / int] with a zero denominator *)
| TypeError           (* hashing a list cell *)
| PatternError.       (* [re.compile] on a malformed pattern *)

Definition result (A : Type) : Type := (exn + A)%type.

Definition ret {A : Type} (a : A) : result A := inr a.
Definition raise {A : Type} (e : exn) : result A := inl e.

Definition bind {A B : Type} (c : result A) (k : A -> result B) : result B :=
  match c with
  | inl e => inl e
  | inr a => k a
  end.

Notation "x <- c ;; k" := (bind c (fun x => k))
  (at level 61, c at next level, right associativity).

(** Element-wise conversion of a column: the first failing cell aborts the
    whole column. *)
Fixpoint mapM {A B : Type} (f : A -> result B) (l : list A) : result (list B) :=
  match l with
  | [] => ret []
  | a :: t => b <- f a ;; bs <- mapM f t ;; ret (b :: bs)
  end.

(** ** Calendar dates *)

Record date : Set := mkdate { year : Z; month : Z; day : Z }.

(** [a <= b] on [datetime.date]: lexicographic on (year, month, day). *)
Definition date_leb (a b : date) : bool :=
  (year a <? year b)
  || ((year a =? year b)
      && ((month a <? month b)
          || ((month a =? month b) && (day a <=? day b)))).

(** ** The record store *)

Record BreachRecord : Set := mkBreach {
  Name        : string;
  Title       : string;
  Domain      : string;
  BreachDate  : date;
  AddedDate   : date;
  PwnCount    : Z;
  DataClasses : list string;
  IsVerified  : bool;
  IsSensitive : bool
}.

Definition DataFrame : Set := list BreachRecord.

(** [df['BreachDate'].dt.year] *)
Definition BreachYear (r : BreachRecord) : Z := year (BreachDate r).

(** ** [pd.cut] *)

(** A bin edge: a number or [float('inf')]. *)
Inductive edge : Set :=
| Fin (z : Z)
| Inf.

Definition edge_ltb (lo : edge) (x : Z) : bool :=
  match lo with
  | Fin a => a <? x
  | Inf => false
  end.

Definition edge_geb (hi : edge) (x : Z) : bool :=
  match hi with
  | Fin b => x <=? b
  | Inf => true
  end.

(** [pd.cut(x, bins, labels)] with the default [right=True]: the i-th label
    is given to values in the interval (bins[i], bins[i+1]]; a value in no
    interval is NaN ([None]). *)
Fixpoint cut {L : Type} (bins : list edge) (labels : list L) (x : Z) : option L :=
  match bins, labels with
  | lo :: ((hi :: _) as rest), lab :: labs =>
      if edge_ltb lo x && edge_geb hi x then Some lab else cut rest labs x
  | _, _ => None
  end.

Definition size_bins : list edge :=
  [Fin 0; Fin 10000; Fin 1000000; Fin 50000000; Inf].

Definition size_labels : list string :=
  ["Small (<10k)"; "Medium (10k-1M)"; "Large (1M-50M)"; "Massive (>50M)"].

(** [app.py]: the categorical column, NaN kept as such. *)
Definition BreachSizeCategory (pwn : Z) : option string :=
  cut size_bins size_labels pwn.

(** [.astype(str)] on a categorical cell, as pandas before 3.0 does it: a
    missing cell becomes the string "nan" (see [pandas] below). *)
Definition astype_str (c : option string) : string :=
  match c with
  | Some s => s
  | None => "nan"
  end.

(** [Home.py] and the two pages: the column converted to strings at once. *)
Definition BreachSizeCategory_str (pwn : Z) : string :=
  astype_str (BreachSizeCategory pwn).

(** ** Columns, masks and membership *)

(** [x in l] on Python strings, and [Series.isin] on a string column. *)
Definition str_in (x : string) (l : list string) : bool :=
  existsb (String.eqb x) l.

(** Equality of categorical cells; NaN matches NaN inside [isin]. *)
Definition cell_eqb (a b : option string) : bool :=
  match a, b with
  | Some x, Some y => String.eqb x y
  | None, None => true
  | _, _ => false
  end.

Definition cell_in (x : option string) (l : list (option string)) : bool :=
  existsb (cell_eqb x) l.

(** [Series.unique()]: the distinct values in order of first appearance. *)
Fixpoint unique {A : Type} (eqb : A -> A -> bool) (l : list A) : list A :=
  match l with
  | [] => []
  | x :: t => x :: filter (fun y => negb (eqb x y)) (unique eqb t)
  end.

(** [len(df)] *)
Definition len {A : Type} (l : list A) : Z := Z.of_nat (List.length l).

(** [Series.sum()] of an integer column. *)
Definition Series_sum (col : list Z) : Z := fold_right Z.add 0 col.

(** [.iloc[0]] *)
Definition iloc0 {A : Type} (l : list A) : result A :=
  match l with
  | [] => raise IndexError
  | a :: _ => ret a
  end.

(** ** [df.explode('DataClasses')] *)

(** One row per element of the list cell, the other fields repeated; a row
    whose list is empty is kept once, with NaN in the exploded column. *)
Record ClassRow : Set := mkRow {
  breach    : BreachRecord;
  DataClass : option string
}.

Definition explode_row (r : BreachRecord) : list ClassRow :=
  match DataClasses r with
  | [] => [mkRow r None]
  | cs => map (fun c => mkRow r (Some c)) cs
  end.

Definition explode (df : DataFrame) : list ClassRow :=
  flat_map explode_row df.

(** [load_data()] returns the frame and its exploded view. *)
Definition load_data (data : DataFrame) : DataFrame * list ClassRow :=
  (data, explode data).

(** [data_classes_df[data_classes_df['Name'].isin(filtered_df['Name'])]] *)
Definition rows_of (data_classes_df : list ClassRow) (filtered_df : DataFrame)
  : list ClassRow :=
  filter (fun row => str_in (Name (breach row)) (map Name filtered_df))
         data_classes_df.

(** ** Sidebar filters shared by the pages *)

(** Date range: applied only when the widget holds both ends. *)
Definition date_filter (date_range : list date) (df : DataFrame) : DataFrame :=
  match date_range with
  | [start_date; end_date] =>
      filter (fun r => date_leb start_date (BreachDate r)
                       && date_leb (BreachDate r) end_date) df
  | _ => df
  end.

(** A two-label multiselect over a boolean column. *)
Definition label_filter (yes no : string) (col : BreachRecord -> bool)
           (status : list string) (df : DataFrame) : DataFrame :=
  match status with
  | [] => df
  | _ :: _ =>
      if str_in yes status && str_in no status then df
      else if str_in yes status then filter (fun r => Bool.eqb (col r) true) df
      else if str_in no status then filter (fun r => Bool.eqb (col r) false) df
      else df
  end.

Definition verification_filter : list string -> DataFrame -> DataFrame :=
  label_filter "Verified" "Unverified" IsVerified.

Definition sensitivity_filter : list string -> DataFrame -> DataFrame :=
  label_filter "Sensitive" "Non-Sensitive" IsSensitive.

(** [df['BreachDate'].min().date()] and [.max().date()], when there is a row. *)
Definition date_min (a b : date) : date := if date_leb a b then a else b.
Definition date_max (a b : date) : date := if date_leb a b then b else a.

Definition default_date_range (df : DataFrame) : list date :=
  match df with
  | [] => []
  | r :: t =>
      [fold_left date_min (map BreachDate t) (BreachDate r);
       fold_left date_max (map BreachDate t) (BreachDate r)]
  end.

(** ** Aggregation *)

(** Stable descending sort by an integer key: rows with equal keys keep the
    order they had. [value_counts] and [nlargest(keep='first')] use it. *)
Fixpoint insert_desc {A : Type} (key : A -> Z) (a : A) (sorted : list A) : list A :=
  match sorted with
  | [] => [a]
  | h :: t => if key h <=? key a then a :: h :: t
              else h :: insert_desc key a t
  end.

Definition sort_desc {A : Type} (key : A -> Z) (l : list A) : list A :=
  fold_right (insert_desc key) [] l.

(** Counting table: a new value is appended, a known one is incremented. *)
Fixpoint count_insert (x : string) (tbl : list (string * Z)) : list (string * Z) :=
  match tbl with
  | [] => [(x, 1)]
  | (y, n) :: t => if String.eqb x y then (y, n + 1) :: t
                   else (y, n) :: count_insert x t
  end.

Definition hash_counts (col : list string) : list (string * Z) :=
  fold_left (fun tbl x => count_insert x tbl) col [].

(** NaN cells are not counted. *)
Definition dropna {A : Type} (col : list (option A)) : list A :=
  flat_map (fun c => match c with Some a => [a] | None => [] end) col.

(** [value_counts] sorts the counts with [sort_values(ascending=False)]:
    a stable sort from pandas 3.0 on, numpy's quicksort before, which may
    leave rows of equal count in any order. A [tie_order] stands for that
    freedom: a rearrangement of the counting table taken before the stable
    sort. Every descending arrangement of the table arises from one;
    [first_seen_ties] is the stable sort itself. *)
Definition tie_order : Type := list (string * Z) -> list (string * Z).

Definition rearranges (ties : tie_order) : Prop :=
  forall tbl, Permutation (ties tbl) tbl.

Definition first_seen_ties : tie_order := fun tbl => tbl.

(** [Series.value_counts().reset_index()]: (value, count) rows, most frequent
    first. *)
Definition value_counts (ties : tie_order) (col : list (option string))
  : list (string * Z) :=
  sort_desc snd (ties (hash_counts (dropna col))).

(** [df.head(n)] *)
Definition head {A : Type} (n : nat) (l : list A) : list A := firstn n l.

(** [df.nlargest(n, 'PwnCount')] *)
Definition nlargest (n : nat) (df : DataFrame) : DataFrame :=
  head n (sort_desc PwnCount df).

(** [groupby(key).size()]: one row per distinct key, ascending by key. *)
Fixpoint group_insert (k : Z) (tbl : list (Z * Z)) : list (Z * Z) :=
  match tbl with
  | [] => [(k, 1)]
  | (k', n) :: t => if k <? k' then (k, 1) :: (k', n) :: t
                    else if k =? k' then (k', n + 1) :: t
                    else (k', n) :: group_insert k t
  end.

Definition groupby_size (keys : list Z) : list (Z * Z) :=
  fold_left (fun tbl k => group_insert k tbl) keys [].

(** ** Percentages *)

(** Nearest integer, ties to even (what [round] does at .5). *)
Definition Qround_half_even (q : Q) : Z :=
  let n := Qnum q in
  let d := Z.pos (Qden q) in
  let fl := n / d in
  let r := n mod d in
  if 2 * r <? d then fl
  else if d <? 2 * r then fl + 1
  else if Z.even fl then fl else fl + 1.

(** 2^e as a rational. *)
Definition pow2 (e : Z) : Q :=
  if 0 <=? e then inject_Z (2 ^ e) else 1 # Z.to_pos (2 ^ (- e)).

(** floor (log2 q) of a positive rational. *)
Definition ilog2 (q : Q) : Z :=
  let k := Z.log2 (Qnum q) - Z.log2 (Z.pos (Qden q)) in
  if Qle_bool (pow2 k) q then k else k - 1.

(** The binary64 number nearest to a rational, ties to even: 53 significant
    bits. Overflow and subnormal numbers are left out; the quantities
    rounded here lie between 2^-63 and 1001, or are 0. *)
Definition fl (q : Q) : Q :=
  if Qeq_bool q 0 then 0%Q
  else let e := ilog2 (Qabs q) - 52 in
       (inject_Z (Qround_half_even (q / pow2 e)) * pow2 e)%Q.

(** [.round(1)] on a float column: numpy multiplies by 10, rounds to the
    nearest integer (ties to even) and divides by 10, each step in
    binary64. *)
Definition round1 (x : Q) : Q :=
  fl (inject_Z (Qround_half_even (fl (x * 10))) / 10).

(** [count / denom * 100], as a real number. *)
Definition percent_exact (denom : Z) (count : Z) : Q :=
  (inject_Z count / inject_Z denom * 100)%Q.

(** [(count / denom * 100).round(1)] in binary64: the integers convert
    exactly, the quotient and the product are rounded. *)
Definition percent_float (denom : Z) (count : Z) : Q :=
  round1 (fl (fl (inject_Z count / inject_Z denom) * 100)).

(** [(counts / denom * 100).round(1)] over a column. *)
Definition percent_column (counts : list Z) (denom : Z) : list Q :=
  map (percent_float denom) counts.

Definition Qsum (col : list Q) : Q := fold_right Qplus 0%Q col.

(** Python [a / b] on two [int]s. *)
Definition py_div (a b : Z) : result Q :=
  if b =? 0 then raise ZeroDivisionError
  else ret (inject_Z a / inject_Z b)%Q.

(** ** Insights *)

Record InsightSet : Set := mkInsights {
  most_common_data_class : string;
  largest_breach         : string;
  largest_breach_count   : Z;
  trend_text             : string
}.

(** [len(df[df['BreachYear'] >= current_year - 2])] *)
Definition recent_count (current_year : Z) (filtered_df : DataFrame) : Z :=
  len (filter (fun r => BreachYear r >=? current_year - 2) filtered_df).

(** [len(df[(df['BreachYear'] < current_year - 2)
            & (df['BreachYear'] >= current_year - 4)])] *)
Definition previous_count (current_year : Z) (filtered_df : DataFrame) : Z :=
  len (filter (fun r => (BreachYear r <? current_year - 2)
                        && (BreachYear r >=? current_year - 4)) filtered_df).

(** ['increasing' if recent_count > previous_count else 'decreasing'] *)
Definition trend (current_year : Z) (filtered_df : DataFrame) : string :=
  if recent_count current_year filtered_df >? previous_count current_year filtered_df
  then "increasing" else "decreasing".

(** [(count / len(filtered_df)) * 100 if len(filtered_df) > 0 else 0] *)
Definition guarded_percentage (count : Z) (filtered_df : DataFrame) : Q :=
  if len filtered_df >? 0
  then (inject_Z count / inject_Z (len filtered_df) * 100)%Q
  else 0%Q.

(** The top-10 table of both dashboards and its percentage column:
    [(top['Count'] / top['Count'].sum() * 100).round(1)]. *)
Definition data_class_counts (ties : tie_order) (rows : list ClassRow)
  : list (string * Z) :=
  value_counts ties (map DataClass rows).

Definition top_data_classes (ties : tie_order) (rows : list ClassRow)
  : list (string * Z) :=
  head 10 (data_class_counts ties rows).

Definition top_Percentage (ties : tie_order) (rows : list ClassRow) : list Q :=
  let Count := map snd (top_data_classes ties rows) in
  percent_column Count (Series_sum Count).

(** ** Library versions *)

(** The source pins no pandas version, and two behaviours it relies on
    changed with pandas 3.0. [.astype(str)] turned a missing categorical cell
    into the string "nan" before 3.0 and leaves it missing from 3.0 on, where
    [.dropna()] then removes it; the options of the size widget of [Home.py]
    depend on this. A missing cell matches no label the widget offers, so
    the filter itself behaves alike on both once the selection is given. *)
Inductive pandas : Set :=
| before_3
| from_3.

(** ** [Home.py] *)

Module Home.

Record FilterCriteria : Set := mkCriteria {
  date_range         : list date;
  verification_status : list string;
  sensitivity_status : list string;
  breach_size        : list string
}.

(** [if breach_size: filtered_df[...isin(breach_size)]] on the string
    column. *)
Definition size_filter (sel : list string) (df : DataFrame) : DataFrame :=
  match sel with
  | [] => df
  | _ :: _ => filter (fun r => str_in (BreachSizeCategory_str (PwnCount r)) sel) df
  end.

Definition filtered_df (df : DataFrame) (c : FilterCriteria) : DataFrame :=
  size_filter (breach_size c)
    (sensitivity_filter (sensitivity_status c)
      (verification_filter (verification_status c)
        (date_filter (date_range c) df))).

Definition filtered_data_classes_df (df : DataFrame) (c : FilterCriteria)
  : list ClassRow :=
  rows_of (explode df) (filtered_df df c).

(** [df['BreachSizeCategory'].dropna().unique().tolist()] on the converted
    column: before pandas 3.0 the missing cells are "nan" strings and stay,
    from 3.0 on they are missing and dropped. *)
Definition size_options (v : pandas) (df : DataFrame) : list string :=
  match v with
  | before_3 =>
      unique String.eqb (map (fun r => BreachSizeCategory_str (PwnCount r)) df)
  | from_3 =>
      unique String.eqb (dropna (map (fun r => BreachSizeCategory (PwnCount r)) df))
  end.

(** The widgets' defaults. *)
Definition default_criteria (v : pandas) (df : DataFrame) : FilterCriteria :=
  {| date_range := default_date_range df;
     verification_status := ["Verified"; "Unverified"];
     sensitivity_status := ["Sensitive"; "Non-Sensitive"];
     breach_size := size_options v df |}.

(** [Series.idxmax()] then [.loc]: the first row holding the maximum. *)
Fixpoint argmax_first (best : BreachRecord) (l : DataFrame) : BreachRecord :=
  match l with
  | [] => best
  | r :: t => argmax_first (if PwnCount best <? PwnCount r then r else best) t
  end.

Definition idxmax_row (df : DataFrame) : result BreachRecord :=
  match df with
  | [] => raise ValueError
  | r :: t => ret (argmax_first r t)
  end.

(** Lines 310-332: no guard in front of [.iloc[0]] and [.idxmax()]. *)
Definition insights (ties : tie_order) (current_year : Z)
           (filtered_df : DataFrame)
           (filtered_data_classes_df : list ClassRow) : result InsightSet :=
  top <- iloc0 (data_class_counts ties filtered_data_classes_df) ;;
  big <- idxmax_row filtered_df ;;
  ret (mkInsights (fst top) (Name big) (PwnCount big)
                  (trend current_year filtered_df)).

End Home.

(** ** [app.py] *)

Module App.

Record FilterCriteria : Set := mkCriteria {
  date_range            : list date;
  verification_status   : list string;
  sensitivity_status    : list string;
  breach_size           : list (option string);
  selected_data_classes : list string
}.

(** [isin] on the categorical column. *)
Definition size_filter (sel : list (option string)) (df : DataFrame) : DataFrame :=
  match sel with
  | [] => df
  | _ :: _ => filter (fun r => cell_in (BreachSizeCategory (PwnCount r)) sel) df
  end.

(** Breaches that hold ANY of the selected data classes. *)
Definition data_class_filter (sel : list string) (data_classes_df : list ClassRow)
           (df : DataFrame) : DataFrame :=
  match sel with
  | [] => df
  | _ :: _ =>
      let hits := filter (fun row => match DataClass row with
                                     | Some c => str_in c sel
                                     | None => false
                                     end) data_classes_df in
      filter (fun r => str_in (Name r) (map (fun row => Name (breach row)) hits)) df
  end.

Definition filtered_df (df : DataFrame) (c : FilterCriteria) : DataFrame :=
  data_class_filter (selected_data_classes c) (explode df)
    (size_filter (breach_size c)
      (sensitivity_filter (sensitivity_status c)
        (verification_filter (verification_status c)
          (date_filter (date_range c) df)))).

Definition filtered_data_classes_df (df : DataFrame) (c : FilterCriteria)
  : list ClassRow :=
  rows_of (explode df) (filtered_df df c).

Definition default_criteria (df : DataFrame) : FilterCriteria :=
  {| date_range := default_date_range df;
     verification_status := ["Verified"; "Unverified"];
     sensitivity_status := ["Sensitive"; "Non-Sensitive"];
     breach_size :=
       unique cell_eqb (map (fun r => BreachSizeCategory (PwnCount r)) df);
     selected_data_classes := [] |}.

(** [df.empty] *)
Definition empty {A : Type} (l : list A) : bool :=
  match l with
  | [] => true
  | _ :: _ => false
  end.

(** Lines 684-699: every [.iloc[0]] sits behind [if not ... .empty]. *)
Definition insights (ties : tie_order) (current_year : Z)
           (filtered_df : DataFrame)
           (filtered_data_classes_df : list ClassRow) : result InsightSet :=
  let counts := data_class_counts ties filtered_data_classes_df in
  most <- (if negb (empty counts)
           then (top <- iloc0 counts ;; ret (fst top))
           else ret "N/A") ;;
  name <- (if negb (empty filtered_df)
           then (r <- iloc0 (nlargest 1 filtered_df) ;; ret (Name r))
           else ret "N/A") ;;
  count <- (if negb (empty filtered_df)
            then (r <- iloc0 (nlargest 1 filtered_df) ;; ret (PwnCount r))
            else ret 0) ;;
  ret (mkInsights most name count (trend current_year filtered_df)).

(** *** Severity (lines 464-498) *)

Definition high_risk_classes : list string :=
  ["Passwords"; "Credit cards"; "Social security numbers"; "Financial data";
   "Health records"; "Dates of birth"; "Phone numbers";
   "Security questions and answers"].

(** [.astype(int)] on a categorical cell: NaN cannot be converted. *)
Definition astype_int (c : option Z) : result Z :=
  match c with
  | Some z => ret z
  | None => raise ValueError
  end.

Definition SizeScore (df : DataFrame) : result (list Z) :=
  mapM (fun r => astype_int (cut size_bins [1; 2; 3; 4] (PwnCount r))) df.

Definition SensitiveScore (r : BreachRecord) : Z :=
  (if IsSensitive r then 1 else 0) * 3.

(** [sum(1 for item in x if item in high_risk_classes)] *)
Definition HighRiskDataCount (r : BreachRecord) : Z :=
  Series_sum (map (fun _ => 1)
                  (filter (fun item => str_in item high_risk_classes)
                          (DataClasses r))).

Definition DataClassScore (r : BreachRecord) : Z :=
  Z.min (HighRiskDataCount r) 3.

Definition severity_bins : list edge := [Fin 0; Fin 3; Fin 6; Fin 10].
Definition severity_labels : list string := ["Low"; "Medium"; "High"].

Record SeverityRow : Set := mkSeverity {
  record           : BreachRecord;
  SeverityScore    : Z;
  SeverityCategory : option string
}.

Definition severity_row (r : BreachRecord) (size : Z) : SeverityRow :=
  let score := Z.min (size + SensitiveScore r + DataClassScore r) 10 in
  mkSeverity r score (cut severity_bins severity_labels score).

Definition severity_df (filtered_df : DataFrame) : result (list SeverityRow) :=
  sizes <- SizeScore filtered_df ;;
  ret (map (fun p => severity_row (fst p) (snd p)) (combine filtered_df sizes)).

(** *** Search (lines 717-735) *)


Section Search.

(** [Series.str.contains(search_term, case=False)]: the term is compiled as
    a regular expression, which fails on a malformed pattern, and then
    searched for in each cell. The pattern language is left open. *)
Variable re_compile : string -> result (string -> bool).




End Search.






End App.

(** ** [pages/2_Data_Classes_Analysis.py] *)

Module DataClassesPage.

Definition filtered_df (df : DataFrame) (date_range : list date) : DataFrame :=
  date_filter date_range df.

Definition filtered_data_classes_df (df : DataFrame) (date_range : list date)
  : list ClassRow :=
  rows_of (explode df) (filtered_df df date_range).

(** Line 75: [(Count / len(filtered_df) * 100).round(1)] over the whole
    frequency table. *)
Definition Percentage (ties : tie_order) (filtered_df : DataFrame)
           (rows : list ClassRow) : list Q :=
  percent_column (map snd (data_class_counts ties rows)) (len filtered_df).

End DataClassesPage.

(** ** [pages/1_Timeline_Analysis.py] *)

Module TimelinePage.

Definition yearly_breaches (filtered_df : DataFrame) : list (Z * Z) :=
  groupby_size (map BreachYear filtered_df).

(** Line 156: [total_breaches / len(yearly_breaches)] *)
Definition yearly_avg (filtered_df : DataFrame) : result Q :=
  py_div (len filtered_df) (len (yearly_breaches filtered_df)).

End TimelinePage.

(** ** Reference definitions, in the words of the specification *)

(** Number of occurrences of [x] in a column. *)
Fixpoint count_of (x : string) (col : list string) : Z :=
  match col with
  | [] => 0
  | y :: t => (if String.eqb x y then 1 else 0) + count_of x t
  end.

(** The frequency table in first-encountered order. *)
Definition first_seen_counts (col : list string) : list (string * Z) :=
  map (fun x => (x, count_of x col)) (unique String.eqb col).

(** sizeScore: 1, 2, 3, 4 by the bucket edges of the size category. *)
Definition sizeScore_spec (pwn : Z) : Z :=
  if pwn <=? 10000 then 1
  else if pwn <=? 1000000 then 2
  else if pwn <=? 50000000 then 3
  else 4.

(** min(10, sizeScore + sensitiveScore + dataClassScore) *)
Definition severityScore_spec (r : BreachRecord) : Z :=
  Z.min 10
    (sizeScore_spec (PwnCount r)
     + (if IsSensitive r then 3 else 0)
     + Z.min 3 (len (filter (fun c => str_in c App.high_risk_classes)
                            (DataClasses r)))).

(** Low (0,3], Medium (3,6], High (6,10]. *)
Definition severityCategory_spec (score : Z) : option string :=
  if (0 <? score) && (score <=? 3) then Some "Low"
  else if (3 <? score) && (score <=? 6) then Some "Medium"
  else if (6 <? score) && (score <=? 10) then Some "High"
  else None.

(** Number of rows whose breach year satisfies [p]. *)
Fixpoint count_years (p : Z -> bool) (df : DataFrame) : Z :=
  match df with
  | [] => 0
  | r :: t => (if p (BreachYear r) then 1 else 0) + count_years p t
  end.

(** Select-all settings of the sidebar. *)
Definition full_date_range (date_range : list date) (df : DataFrame) : Prop :=
  match date_range with
  | [start_date; end_date] =>
      forall r, In r df ->
                date_leb start_date (BreachDate r) = true
                /\ date_leb (BreachDate r) end_date = true
  | _ => True
  end.

Definition both_or_neither (yes no : string) (status : list string) : Prop :=
  status = [] \/ (In yes status /\ In no status).

Definition App_select_all (df : DataFrame) (c : App.FilterCriteria) : Prop :=
  full_date_range (App.date_range c) df
  /\ both_or_neither "Verified" "Unverified" (App.verification_status c)
  /\ both_or_neither "Sensitive" "Non-Sensitive" (App.sensitivity_status c)
  /\ (App.breach_size c = []
      \/ forall r, In r df -> In (BreachSizeCategory (PwnCount r)) (App.breach_size c))
  /\ App.selected_data_classes c = [].

Definition Home_select_all (df : DataFrame) (c : Home.FilterCriteria) : Prop :=
  full_date_range (Home.date_range c) df
  /\ both_or_neither "Verified" "Unverified" (Home.verification_status c)
  /\ both_or_neither "Sensitive" "Non-Sensitive" (Home.sensitivity_status c)
  /\ (Home.breach_size c = []
      \/ forall r, In r df ->
                   In (BreachSizeCategory_str (PwnCount r)) (Home.breach_size c)).

(** ** Sample data *)

Definition d (y m dd : Z) : date := mkdate y m dd.

(** The severity example of the specification. *)
Definition breach_B : BreachRecord :=
  mkBreach "B" "B" "b.example" (d 2019 5 17) (d 2019 6 1) 2000000
           ["Passwords"; "Usernames"; "Credit cards"] false true.

Definition breach_A : BreachRecord :=
  mkBreach "A" "A" "a.example" (d 2015 3 2) (d 2015 4 1) 5000
           ["Email addresses"] true false.

Definition breach_C : BreachRecord :=
  mkBreach "C" "C" "c.example" (d 2021 11 30) (d 2022 1 9) 60000000
           ["Passwords"] true true.

(** A record with no affected accounts and no data classes. *)
Definition breach_Z : BreachRecord :=
  mkBreach "Z" "Z" "z.example" (d 2020 1 1) (d 2020 1 2) 0 [] true false.

Definition sample_df : DataFrame := [breach_A; breach_B; breach_C].

(** The fields of [breach_A] with a larger count. *)
Definition breach_A_large : BreachRecord :=
  mkBreach "A2" "A2" "a.example" (d 2015 3 2) (d 2015 4 1) 20000000
           ["Email addresses"] true false.

(** ** Further tables of the dashboards *)

(** [filtered_df['PwnCount'].sum()] *)
Definition total_pwned (filtered_df : DataFrame) : Z :=
  Series_sum (map PwnCount filtered_df).






(** [app.py] line 527:
    [severity_df[severity_df['SeverityCategory'] == 'High']
       .sort_values('SeverityScore', ascending=False)] *)
Definition high_severity (severity_df : list App.SeverityRow)
  : list App.SeverityRow :=
  sort_desc App.SeverityScore
    (filter (fun row => cell_eqb (App.SeverityCategory row) (Some "High"))
            severity_df).

(** [app.py] lines 576-577. *)
Definition sensitive_breaches (filtered_df : DataFrame) : DataFrame :=
  filter (fun r => Bool.eqb (IsSensitive r) true) filtered_df.

Definition sensitive_data_classes (data_classes_df : list ClassRow)
           (filtered_df : DataFrame) : list ClassRow :=
  rows_of data_classes_df (sensitive_breaches filtered_df).

(** [Series.idxmax()] then [.loc] on a table: the first row holding the
    maximum of the column; an empty column has no maximum. *)
Fixpoint argmax_by {A : Type} (key : A -> Z) (best : A) (l : list A) : A :=
  match l with
  | [] => best
  | a :: t => argmax_by key (if key best <? key a then a else best) t
  end.

Definition idxmax_by {A : Type} (key : A -> Z) (l : list A) : result A :=
  match l with
  | [] => raise ValueError
  | a :: t => ret (argmax_by key a t)
  end.

(** [pages/1_Timeline_Analysis.py] line 157:
    [yearly_breaches.loc[yearly_breaches['Number of Breaches'].idxmax()]] *)
Definition worst_year (filtered_df : DataFrame) : result (Z * Z) :=
  idxmax_by snd (TimelinePage.yearly_breaches filtered_df).

(** ** Row predicates of the filter stages *)

Definition date_keeps (date_range : list date) (r : BreachRecord) : bool :=
  match date_range with
  | [start_date; end_date] =>
      date_leb start_date (BreachDate r) && date_leb (BreachDate r) end_date
  | _ => true
  end.

Definition label_keeps (yes no : string) (status : list string) (flag : bool)
  : bool :=
  match status with
  | [] => true
  | _ :: _ =>
      if str_in yes status && str_in no status then true
      else if str_in yes status then Bool.eqb flag true
      else if str_in no status then Bool.eqb flag false
      else true
  end.

(** The first maximum of [a :: t], read from the right. *)
Fixpoint first_max {A : Type} (key : A -> Z) (a : A) (t : list A) : A :=
  match t with
  | [] => a
  | b :: t' => let m := first_max key b t' in
               if key m <=? key a then a else m
  end.

(** Total size recorded for key [k] in a group table. *)
Fixpoint group_size_of (k : Z) (tbl : list (Z * Z)) : Z :=
  match tbl with
  | [] => 0
  | (k', n) :: t => (if k =? k' then n else 0) + group_size_of k t
  end.

(** Number of occurrences of [k] among integer keys. *)
Fixpoint count_key (k : Z) (keys : list Z) : Z :=
  match keys with
  | [] => 0
  | k' :: t => (if k =? k' then 1 else 0) + count_key k t
  end.

(** * Theorems *)

Ltac cut_cases :=
  intros;
  repeat match goal with
         | H : context [?a <? ?b] |- _ => destruct (Z.ltb_spec a b)
         | H : context [?a <=? ?b] |- _ => destruct (Z.leb_spec a b)
         | |- context [?a <? ?b] => destruct (Z.ltb_spec a b)
         | |- context [?a <=? ?b] => destruct (Z.leb_spec a b)
         end;
  simpl in *; try lia; try congruence.

(** C5. The size category is a function of [PwnCount] alone, bucketed by the
    intervals (0,10000], (10000,1000000], (1000000,50000000] and
    (50000000,inf); a count of exactly 0 lies in no bin and has no category
    (NaN in [app.py], the string "nan" once [Home.py] converts the column). *)
Theorem BreachSizeCategory_buckets (pwn : Z) :
  (BreachSizeCategory pwn = Some "Small (<10k)" <-> 0 < pwn <= 10000) /\
  (BreachSizeCategory pwn = Some "Medium (10k-1M)" <-> 10000 < pwn <= 1000000) /\
  (BreachSizeCategory pwn = Some "Large (1M-50M)" <-> 1000000 < pwn <= 50000000) /\
  (BreachSizeCategory pwn = Some "Massive (>50M)" <-> 50000000 < pwn) /\
  (BreachSizeCategory pwn = None <-> pwn <= 0) /\
  (BreachSizeCategory_str pwn = "nan" <-> pwn <= 0) /\
  BreachSizeCategory 0 = None.
Proof.
  unfold BreachSizeCategory_str, astype_str, BreachSizeCategory, size_bins,
    size_labels, cut, edge_ltb, edge_geb.
  repeat split; cut_cases.
Qed.

(** ** Empty filtered sets *)

Lemma rows_of_nil (data_classes_df : list ClassRow) :
  rows_of data_classes_df [] = [].
Proof.
  unfold rows_of. induction data_classes_df as [|row rows IH]; simpl; auto.
Qed.

Lemma rearranges_nil (ties : tie_order) : rearranges ties -> ties [] = [].
Proof.
  intros H. apply Permutation_nil, Permutation_sym, H.
Qed.

Lemma first_seen_ties_rearranges : rearranges first_seen_ties.
Proof. intros tbl. apply Permutation_refl. Qed.

Lemma value_counts_no_cells (ties : tie_order) (col : list (option string)) :
  rearranges ties -> dropna col = [] -> value_counts ties col = [].
Proof.
  intros Hties Hcol. unfold value_counts. rewrite Hcol.
  change (hash_counts []) with (@nil (string * Z)).
  rewrite (rearranges_nil ties Hties). reflexivity.
Qed.

(** The aggregations themselves are total on the empty frame. *)
Lemma aggregations_empty (ties : tie_order) (n : nat) :
  rearranges ties ->
  value_counts ties [] = [] /\ nlargest n [] = []
  /\ top_data_classes ties [] = []
  /\ top_Percentage ties [] = [] /\ (guarded_percentage 0 [] == 0)%Q.
Proof.
  intros Hties.
  assert (Hvc : value_counts ties [] = [])
    by (apply value_counts_no_cells; [exact Hties | reflexivity]).
  unfold top_Percentage, top_data_classes, data_class_counts. cbn [map].
  rewrite Hvc. repeat split; try reflexivity; destruct n; reflexivity.
Qed.

(** [app.py] guards every positional access. *)
Lemma App_insights_empty (ties : tie_order) (current_year : Z) :
  rearranges ties ->
  App.insights ties current_year [] []
  = ret (mkInsights "N/A" "N/A" 0 "decreasing").
Proof.
  intros Hties. unfold App.insights, data_class_counts. cbn [map].
  rewrite (value_counts_no_cells ties [] Hties eq_refl). reflexivity.
Qed.

(** The timeline page divides by the number of year groups. *)
Lemma Timeline_yearly_avg_empty :
  TimelinePage.yearly_avg [] = raise ZeroDivisionError.
Proof. reflexivity. Qed.

(** C1. On an empty filtered set the insight block of [Home.py] does not
    produce the "N/A" sentinel: the unguarded [.iloc[0]] on the empty
    frequency table raises [IndexError]. *)
Theorem Home_insights_empty_raises (ties : tie_order) (current_year : Z)
        (df : DataFrame) (c : Home.FilterCriteria) :
  rearranges ties ->
  Home.filtered_df df c = [] ->
  Home.insights ties current_year (Home.filtered_df df c)
                (Home.filtered_data_classes_df df c) = raise IndexError.
Proof.
  intros Hties Hempty. unfold Home.filtered_data_classes_df.
  rewrite Hempty, rows_of_nil. unfold Home.insights, data_class_counts.
  cbn [map]. rewrite (value_counts_no_cells ties [] Hties eq_refl).
  reflexivity.
Qed.

Lemma Home_insights_empty_raises_witness :
  Home.filtered_df [breach_A] (Home.mkCriteria [] ["Unverified"] [] []) = []
  /\ Home.insights first_seen_ties 2025
       (Home.filtered_df [breach_A] (Home.mkCriteria [] ["Unverified"] [] []))
       (Home.filtered_data_classes_df [breach_A]
          (Home.mkCriteria [] ["Unverified"] [] []))
     = raise IndexError.
Proof.
  split; [reflexivity|].
  apply Home_insights_empty_raises;
    [apply first_seen_ties_rearranges | reflexivity].
Defined.

(** ** Trend *)

Lemma len_filter_count (p : Z -> bool) (df : DataFrame) :
  len (filter (fun r => p (BreachYear r)) df) = count_years p df.
Proof.
  unfold len. induction df as [|r t IH]; simpl; auto.
  destruct (p (BreachYear r)); simpl List.length; lia.
Qed.

(** C3. The trend compares the number of records with
    [BreachYear >= current_year - 2] with the number of those with
    [current_year - 4 <= BreachYear < current_year - 2]; it is "increasing"
    exactly when the first is greater and "decreasing" otherwise, so equal
    counts give "decreasing". *)
Theorem trend_tie_is_decreasing (current_year : Z) (df : DataFrame) :
  let recent := count_years (fun y => y >=? current_year - 2) df in
  let previous :=
    count_years (fun y => (y <? current_year - 2) && (y >=? current_year - 4)) df in
  recent_count current_year df = recent
  /\ previous_count current_year df = previous
  /\ (trend current_year df = "increasing" <-> recent > previous)
  /\ (trend current_year df = "decreasing" <-> recent <= previous)
  /\ recent_count 2023 sample_df = previous_count 2023 sample_df
  /\ trend 2023 sample_df = "decreasing".
Proof.
  intros recent previous.
  assert (Hr : recent_count current_year df = recent)
    by (apply (len_filter_count (fun y => y >=? current_year - 2))).
  assert (Hp : previous_count current_year df = previous)
    by (apply (len_filter_count
                 (fun y => (y <? current_year - 2) && (y >=? current_year - 4)))).
  unfold trend. rewrite Hr, Hp.
  repeat split; try reflexivity;
    destruct (Z.gtb_spec recent previous); intros; try lia; try congruence;
    try reflexivity.
Qed.

(** ** Severity *)

Lemma SizeScore_char (df : DataFrame) :
  App.SizeScore df =
  if forallb (fun r => 0 <? PwnCount r) df
  then ret (map (fun r => sizeScore_spec (PwnCount r)) df)
  else raise ValueError.
Proof.
  unfold App.SizeScore.
  induction df as [|r t IH]; [reflexivity|].
  cbn [mapM forallb map]. rewrite IH.
  assert (Hhead :
    App.astype_int (cut size_bins [1; 2; 3; 4] (PwnCount r)) =
    if 0 <? PwnCount r then ret (sizeScore_spec (PwnCount r))
    else raise ValueError).
  { unfold sizeScore_spec, size_bins, cut, edge_ltb, edge_geb, App.astype_int.
    cut_cases. }
  rewrite Hhead.
  destruct (0 <? PwnCount r); [|reflexivity].
  destruct (forallb (fun r0 => 0 <? PwnCount r0) t); reflexivity.
Qed.

Lemma combine_map_self {A B : Type} (f : A -> B) (l : list A) :
  combine l (map f l) = map (fun a => (a, f a)) l.
Proof. induction l; simpl; congruence. Qed.

Lemma Series_sum_ones {A : Type} (l : list A) :
  Series_sum (map (fun _ => 1) l) = len l.
Proof.
  unfold len. induction l as [|a t IH]; [reflexivity|].
  cbn [map Series_sum fold_right] in *. fold (Series_sum (map (fun _ : A => 1) t)).
  rewrite IH. simpl List.length. lia.
Qed.

Lemma severity_cut_spec (score : Z) :
  cut App.severity_bins App.severity_labels score = severityCategory_spec score.
Proof.
  unfold severityCategory_spec, App.severity_bins, App.severity_labels, cut,
    edge_ltb, edge_geb.
  cut_cases.
Qed.

Lemma severity_row_spec (r : BreachRecord) :
  App.severity_row r (sizeScore_spec (PwnCount r)) =
  App.mkSeverity r (severityScore_spec r)
                 (severityCategory_spec (severityScore_spec r)).
Proof.
  unfold App.severity_row.
  assert (Hs : Z.min (sizeScore_spec (PwnCount r) + App.SensitiveScore r
                      + App.DataClassScore r) 10 = severityScore_spec r).
  { unfold severityScore_spec, App.SensitiveScore, App.DataClassScore,
      App.HighRiskDataCount.
    rewrite Series_sum_ones. destruct (IsSensitive r); lia. }
  cbv zeta. rewrite Hs, severity_cut_spec. reflexivity.
Qed.

Lemma severity_df_char (df : DataFrame) :
  App.severity_df df =
  if forallb (fun r => 0 <? PwnCount r) df
  then ret (map (fun r => App.mkSeverity r (severityScore_spec r)
                            (severityCategory_spec (severityScore_spec r))) df)
  else raise ValueError.
Proof.
  unfold App.severity_df. rewrite SizeScore_char.
  destruct (forallb (fun r => 0 <? PwnCount r) df); [|reflexivity].
  cbn [bind ret]. unfold ret. f_equal.
  rewrite combine_map_self, map_map.
  apply map_ext. intros r. cbn [fst snd]. apply severity_row_spec.
Qed.

(** C4. The severity score is min(10, sizeScore + sensitiveScore +
    dataClassScore), with sizeScore 1/2/3/4 by the size bucket edges,
    sensitiveScore 3 or 0 and dataClassScore min(3, number of high-risk data
    classes); the column conversion fails when a count lies in no bucket.
    The record with 2,000,000 accounts, sensitive, classes Passwords,
    Usernames, Credit cards scores 8, category High. *)
Theorem severity_score_formula :
  (forall df : DataFrame,
      App.severity_df df =
      if forallb (fun r => 0 <? PwnCount r) df
      then ret (map (fun r => App.mkSeverity r (severityScore_spec r)
                                (severityCategory_spec (severityScore_spec r))) df)
      else raise ValueError)
  /\ App.severity_df [breach_B] = ret [App.mkSeverity breach_B 8 (Some "High")].
Proof.
  split; [exact severity_df_char | reflexivity].
Qed.

Lemma sizeScore_spec_range (pwn : Z) : 1 <= sizeScore_spec pwn <= 4.
Proof. unfold sizeScore_spec. cut_cases. Qed.

Lemma severityScore_spec_range (r : BreachRecord) :
  1 <= severityScore_spec r <= 10.
Proof.
  unfold severityScore_spec.
  pose proof (sizeScore_spec_range (PwnCount r)) as Hs.
  assert (Hl : 0 <= len (filter (fun c => str_in c App.high_risk_classes)
                                (DataClasses r))) by (unfold len; lia).
  destruct (IsSensitive r); lia.
Qed.

Lemma severityCategory_spec_defined (score : Z) :
  1 <= score <= 10 ->
  severityCategory_spec score = Some "Low"
  \/ severityCategory_spec score = Some "Medium"
  \/ severityCategory_spec score = Some "High".
Proof.
  intros H. unfold severityCategory_spec.
  destruct (Z.leb_spec score 3); [left|].
  { destruct (Z.ltb_spec 0 score); [reflexivity | lia]. }
  destruct (Z.leb_spec score 6); [right; left|right; right].
  { destruct (Z.ltb_spec 0 score), (Z.ltb_spec 3 score); simpl; try lia; reflexivity. }
  destruct (Z.ltb_spec 0 score), (Z.ltb_spec 3 score), (Z.ltb_spec 6 score),
    (Z.leb_spec score 10); simpl; try lia; reflexivity.
Qed.

(** C9. When every record has [PwnCount >= 1] the severity table is computed,
    each score lies between 1 and 10 and each category is Low, Medium or
    High; when some record has [PwnCount < 1] the computation raises. *)
Theorem severity_defined_from_one (df : DataFrame) :
  (Forall (fun r => 1 <= PwnCount r) df ->
   exists rows,
     App.severity_df df = ret rows
     /\ map App.record rows = df
     /\ Forall (fun row =>
                  1 <= App.SeverityScore row <= 10
                  /\ (App.SeverityCategory row = Some "Low"
                      \/ App.SeverityCategory row = Some "Medium"
                      \/ App.SeverityCategory row = Some "High")) rows)
  /\ (Exists (fun r => PwnCount r < 1) df ->
      App.severity_df df = raise ValueError).
Proof.
  rewrite severity_df_char. split.
  - intros Hall.
    assert (Hb : forallb (fun r => 0 <? PwnCount r) df = true).
    { apply forallb_forall. intros r Hr.
      rewrite Forall_forall in Hall. apply Hall in Hr. apply Z.ltb_lt. lia. }
    rewrite Hb. eexists. split; [reflexivity|]. split.
    + rewrite map_map. cbn [App.record]. apply map_id.
    + apply Forall_forall. intros row Hrow.
      apply in_map_iff in Hrow. destruct Hrow as [r [<- _]].
      cbn [App.SeverityScore App.SeverityCategory].
      pose proof (severityScore_spec_range r) as Hrange.
      split; [exact Hrange | apply severityCategory_spec_defined; exact Hrange].
  - intros Hex. apply Exists_exists in Hex. destruct Hex as [r [Hr Hlt]].
    destruct (forallb (fun r0 => 0 <? PwnCount r0) df) eqn:Hb; [|reflexivity].
    rewrite forallb_forall in Hb. apply Hb in Hr. apply Z.ltb_lt in Hr. lia.
Qed.

Lemma severity_defined_from_one_witness :
  (exists rows,
     App.severity_df sample_df = ret rows
     /\ map App.record rows = sample_df
     /\ Forall (fun row =>
                  1 <= App.SeverityScore row <= 10
                  /\ (App.SeverityCategory row = Some "Low"
                      \/ App.SeverityCategory row = Some "Medium"
                      \/ App.SeverityCategory row = Some "High")) rows)
  /\ App.severity_df [breach_A; breach_Z] = raise ValueError.
Proof.
  split.
  - apply (proj1 (severity_defined_from_one sample_df)).
    repeat constructor; simpl; lia.
  - apply (proj2 (severity_defined_from_one [breach_A; breach_Z])).
    apply Exists_cons_tl. apply Exists_cons_hd. simpl. lia.
Defined.

(** ** Masks and membership *)

Lemma filter_all {A : Type} (f : A -> bool) (l : list A) :
  (forall x, In x l -> f x = true) -> filter f l = l.
Proof.
  induction l as [|a t IH]; intros H; [reflexivity|].
  simpl. rewrite (H a (or_introl eq_refl)). f_equal.
  apply IH. intros x Hx. apply H. right. exact Hx.
Qed.

Lemma str_in_In (x : string) (l : list string) :
  str_in x l = true <-> In x l.
Proof.
  unfold str_in. rewrite existsb_exists. split.
  - intros [y [Hy Heq]]. apply String.eqb_eq in Heq. subst. exact Hy.
  - intros H. exists x. split; [exact H | apply String.eqb_refl].
Qed.

Lemma cell_eqb_eq (a b : option string) : cell_eqb a b = true <-> a = b.
Proof.
  destruct a as [x|], b as [y|]; simpl; try (split; congruence).
  rewrite String.eqb_eq. split; congruence.
Qed.

Lemma cell_in_In (x : option string) (l : list (option string)) :
  cell_in x l = true <-> In x l.
Proof.
  unfold cell_in. rewrite existsb_exists. split.
  - intros [y [Hy Heq]]. apply cell_eqb_eq in Heq. subst. exact Hy.
  - intros H. exists x. split; [exact H | apply cell_eqb_eq; reflexivity].
Qed.

Lemma unique_incl {A : Type} (eqb : A -> A -> bool) (l : list A) (x : A) :
  In x (unique eqb l) -> In x l.
Proof.
  induction l as [|a t IH]; simpl; [tauto|].
  intros [H|H]; [left; exact H|].
  right. apply IH. apply filter_In in H. tauto.
Qed.

Lemma unique_complete {A : Type} (eqb : A -> A -> bool) (l : list A) (x : A) :
  (forall a b, eqb a b = true -> a = b) ->
  In x l -> In x (unique eqb l).
Proof.
  intros Hsound. induction l as [|a t IH]; simpl; [tauto|].
  intros [H|H]; [left; exact H|].
  destruct (eqb a x) eqn:E.
  - left. apply Hsound. exact E.
  - right. apply filter_In. split; [apply IH; exact H | rewrite E; reflexivity].
Qed.

(** ** The filter pipeline *)

Lemma date_filter_id (date_range : list date) (df : DataFrame) :
  full_date_range date_range df -> date_filter date_range df = df.
Proof.
  unfold full_date_range, date_filter.
  destruct date_range as [|s [|e [|x rest]]]; auto.
  intros H. apply filter_all. intros r Hr.
  destruct (H r Hr) as [H1 H2]. rewrite H1, H2. reflexivity.
Qed.

Lemma label_filter_id (yes no : string) (col : BreachRecord -> bool)
      (status : list string) (df : DataFrame) :
  both_or_neither yes no status -> label_filter yes no col status df = df.
Proof.
  unfold label_filter. intros [-> | [Hy Hn]]; [reflexivity|].
  destruct status as [|s rest]; [reflexivity|].
  apply str_in_In in Hy. apply str_in_In in Hn.
  rewrite Hy, Hn. reflexivity.
Qed.

Lemma App_filter_identity (df : DataFrame) (c : App.FilterCriteria) :
  App_select_all df c -> App.filtered_df df c = df.
Proof.
  intros (Hd & Hv & Hs & Hz & Hc). unfold App.filtered_df.
  rewrite Hc. cbn [App.data_class_filter].
  rewrite (date_filter_id _ _ Hd).
  unfold verification_filter, sensitivity_filter.
  rewrite (label_filter_id _ _ _ _ _ Hv), (label_filter_id _ _ _ _ _ Hs).
  unfold App.size_filter. destruct Hz as [-> | Hz]; [reflexivity|].
  destruct (App.breach_size c) as [|x rest] eqn:E; [reflexivity|].
  apply filter_all. intros r Hr. apply cell_in_In. apply Hz. exact Hr.
Qed.

Lemma Home_filter_identity (df : DataFrame) (c : Home.FilterCriteria) :
  Home_select_all df c -> Home.filtered_df df c = df.
Proof.
  intros (Hd & Hv & Hs & Hz). unfold Home.filtered_df.
  rewrite (date_filter_id _ _ Hd).
  unfold verification_filter, sensitivity_filter.
  rewrite (label_filter_id _ _ _ _ _ Hv), (label_filter_id _ _ _ _ _ Hs).
  unfold Home.size_filter. destruct Hz as [-> | Hz]; [reflexivity|].
  destruct (Home.breach_size c) as [|x rest] eqn:E; [reflexivity|].
  apply filter_all. intros r Hr. apply str_in_In. apply Hz. exact Hr.
Qed.

(** The order on dates. *)
Ltac date_order :=
  unfold date_leb;
  repeat match goal with
         | x : date |- _ => destruct x
         end;
  cbn [year month day];
  repeat match goal with
         | |- context [?a <? ?b] => destruct (Z.ltb_spec a b)
         | |- context [?a =? ?b] => destruct (Z.eqb_spec a b)
         | |- context [?a <=? ?b] => destruct (Z.leb_spec a b)
         end;
  simpl; intros; try lia; try congruence.

Lemma date_leb_refl (a : date) : date_leb a a = true.
Proof. date_order. Qed.

Lemma date_leb_trans (a b c : date) :
  date_leb a b = true -> date_leb b c = true -> date_leb a c = true.
Proof. date_order. Qed.

Lemma date_leb_total (a b : date) :
  date_leb a b = false -> date_leb b a = true.
Proof. date_order. Qed.

Lemma date_min_le (a b : date) :
  date_leb (date_min a b) a = true /\ date_leb (date_min a b) b = true.
Proof.
  unfold date_min. destruct (date_leb a b) eqn:E.
  - split; [apply date_leb_refl | exact E].
  - split; [apply date_leb_total; exact E | apply date_leb_refl].
Qed.

Lemma date_max_ge (a b : date) :
  date_leb a (date_max a b) = true /\ date_leb b (date_max a b) = true.
Proof.
  unfold date_max. destruct (date_leb a b) eqn:E.
  - split; [exact E | apply date_leb_refl].
  - split; [apply date_leb_refl | apply date_leb_total; exact E].
Qed.

Lemma fold_date_min_le (l : list date) (a : date) :
  date_leb (fold_left date_min l a) a = true
  /\ forall x, In x l -> date_leb (fold_left date_min l a) x = true.
Proof.
  revert a. induction l as [|y t IH]; intros a; simpl.
  - split; [apply date_leb_refl | tauto].
  - destruct (IH (date_min a y)) as [H1 H2].
    destruct (date_min_le a y) as [Ha Hy]. split.
    + eapply date_leb_trans; eauto.
    + intros x [<- | Hx]; [eapply date_leb_trans; eauto | apply H2; exact Hx].
Qed.

Lemma fold_date_max_ge (l : list date) (a : date) :
  date_leb a (fold_left date_max l a) = true
  /\ forall x, In x l -> date_leb x (fold_left date_max l a) = true.
Proof.
  revert a. induction l as [|y t IH]; intros a; simpl.
  - split; [apply date_leb_refl | tauto].
  - destruct (IH (date_max a y)) as [H1 H2].
    destruct (date_max_ge a y) as [Ha Hy]. split.
    + eapply date_leb_trans; eauto.
    + intros x [<- | Hx]; [eapply date_leb_trans; eauto | apply H2; exact Hx].
Qed.

Lemma default_date_range_full (df : DataFrame) :
  full_date_range (default_date_range df) df.
Proof.
  destruct df as [|r t]; [exact I|].
  unfold default_date_range, full_date_range.
  destruct (fold_date_min_le (map BreachDate t) (BreachDate r)) as [Hm1 Hm2].
  destruct (fold_date_max_ge (map BreachDate t) (BreachDate r)) as [HM1 HM2].
  intros x [<- | Hx]; [split; assumption|].
  split; [apply Hm2 | apply HM2]; apply in_map; exact Hx.
Qed.

Lemma App_default_select_all (df : DataFrame) :
  App_select_all df (App.default_criteria df).
Proof.
  unfold App_select_all, App.default_criteria; cbn.
  split; [apply default_date_range_full|].
  split; [right; simpl; tauto|].
  split; [right; simpl; tauto|].
  split; [|reflexivity].
  right. intros r Hr. apply unique_complete.
  - intros a b. apply cell_eqb_eq.
  - apply (in_map (fun r => BreachSizeCategory (PwnCount r))). exact Hr.
Qed.

Lemma Home_default_select_all (df : DataFrame) :
  Home_select_all df (Home.default_criteria before_3 df).
Proof.
  unfold Home_select_all, Home.default_criteria; cbn.
  split; [apply default_date_range_full|].
  split; [right; simpl; tauto|].
  split; [right; simpl; tauto|].
  right. intros r Hr. apply unique_complete.
  - intros a b. apply String.eqb_eq.
  - apply (in_map (fun r => BreachSizeCategory_str (PwnCount r))). exact Hr.
Qed.

Lemma BreachSizeCategory_cases (pwn : Z) :
  (0 < pwn /\ exists lab, BreachSizeCategory pwn = Some lab
                          /\ BreachSizeCategory_str pwn = lab
                          /\ lab <> "nan")
  \/ (pwn <= 0 /\ BreachSizeCategory pwn = None
      /\ BreachSizeCategory_str pwn = "nan").
Proof.
  unfold BreachSizeCategory_str, astype_str, BreachSizeCategory, size_bins,
    size_labels, cut, edge_ltb, edge_geb.
  destruct (Z.ltb_spec 0 pwn); cbn [andb].
  - left. split; [assumption|].
    destruct (Z.leb_spec pwn 10000); [eexists; repeat split; discriminate|].
    destruct (Z.ltb_spec 10000 pwn); [|lia]. cbn [andb].
    destruct (Z.leb_spec pwn 1000000); [eexists; repeat split; discriminate|].
    destruct (Z.ltb_spec 1000000 pwn); [|lia]. cbn [andb].
    destruct (Z.leb_spec pwn 50000000); [eexists; repeat split; discriminate|].
    destruct (Z.ltb_spec 50000000 pwn); [|lia]. cbn [andb].
    eexists; repeat split; discriminate.
  - right. split; [assumption|].
    destruct (Z.ltb_spec 10000 pwn); [lia|].
    destruct (Z.ltb_spec 1000000 pwn); [lia|].
    destruct (Z.ltb_spec 50000000 pwn); [lia|].
    cbn [andb]. split; reflexivity.
Qed.

Lemma In_dropna {A : Type} (col : list (option A)) (a : A) :
  In a (dropna col) <-> In (Some a) col.
Proof.
  unfold dropna. rewrite in_flat_map. split.
  - intros [[x|] [Hin Hx]]; [|destruct Hx].
    destruct Hx as [->|[]]. exact Hin.
  - intros H. exists (Some a). split; [exact H | left; reflexivity].
Qed.

Lemma size_options_from_3 (df : DataFrame) (r : BreachRecord) :
  In r df ->
  str_in (BreachSizeCategory_str (PwnCount r)) (Home.size_options from_3 df)
  = (0 <? PwnCount r).
Proof.
  intros Hr. unfold Home.size_options.
  destruct (BreachSizeCategory_cases (PwnCount r))
    as [(Hpos & lab & Hc & Hs & _) | (Hle & _ & Hs)]; rewrite Hs.
  - apply Z.ltb_lt in Hpos. rewrite Hpos. apply str_in_In.
    apply unique_complete; [intros a b; apply String.eqb_eq|].
    apply In_dropna. rewrite <- Hc.
    apply (in_map (fun r => BreachSizeCategory (PwnCount r))). exact Hr.
  - destruct (Z.ltb_spec 0 (PwnCount r)); [lia|].
    destruct (str_in "nan"
                (unique String.eqb
                   (dropna (map (fun r => BreachSizeCategory (PwnCount r)) df))))
      eqn:E; [|reflexivity].
    apply str_in_In, unique_incl, In_dropna, in_map_iff in E.
    destruct E as [r' [Hc' _]].
    destruct (BreachSizeCategory_cases (PwnCount r'))
      as [(_ & lab & Hc & Hs' & Hnan) | (_ & Hc & _)]; congruence.
Qed.

Lemma size_options_from_3_nil (df : DataFrame) :
  existsb (fun r => 0 <? PwnCount r) df = false ->
  Home.size_options from_3 df = [].
Proof.
  intros H. unfold Home.size_options.
  replace (dropna (map (fun r => BreachSizeCategory (PwnCount r)) df))
    with (@nil string); [reflexivity|].
  induction df as [|r t IH]; [reflexivity|].
  cbn [existsb] in H. apply Bool.orb_false_iff in H. destruct H as [Hr Ht].
  cbn [map]. unfold dropna in *. cbn [flat_map].
  destruct (BreachSizeCategory_cases (PwnCount r))
    as [(Hpos & _) | (_ & Hc & _)].
  - apply Z.ltb_lt in Hpos. congruence.
  - rewrite Hc. cbn [app]. apply IH. exact Ht.
Qed.

(** With the defaults of pandas 3 the home page keeps the records that have
    a size category, unless no record has one. *)
Lemma Home_default_from_3 (df : DataFrame) :
  Home.filtered_df df (Home.default_criteria from_3 df)
  = if existsb (fun r => 0 <? PwnCount r) df
    then filter (fun r => 0 <? PwnCount r) df
    else df.
Proof.
  unfold Home.filtered_df, Home.default_criteria.
  cbn [Home.date_range Home.verification_status Home.sensitivity_status
       Home.breach_size].
  rewrite (date_filter_id _ _ (default_date_range_full df)).
  unfold verification_filter, sensitivity_filter.
  rewrite !label_filter_id by (right; simpl; tauto).
  destruct (existsb (fun r => 0 <? PwnCount r) df) eqn:E.
  - unfold Home.size_filter.
    destruct (Home.size_options from_3 df) as [|o os] eqn:Ho.
    + exfalso. apply existsb_exists in E. destruct E as [r [Hr Hpos]].
      pose proof (size_options_from_3 df r Hr) as H.
      rewrite Ho, Hpos in H. discriminate.
    + rewrite <- Ho. apply filter_ext_in. intros r Hr.
      apply size_options_from_3. exact Hr.
  - rewrite (size_options_from_3_nil df E). reflexivity.
Qed.

Lemma Home_default_positive (v : pandas) (df : DataFrame) :
  Forall (fun r => 0 < PwnCount r) df ->
  Home.filtered_df df (Home.default_criteria v df) = df.
Proof.
  intros Hall. destruct v.
  - apply Home_filter_identity, Home_default_select_all.
  - rewrite Home_default_from_3.
    destruct (existsb (fun r => 0 <? PwnCount r) df); [|reflexivity].
    apply filter_all. intros r Hr. rewrite Forall_forall in Hall.
    apply Z.ltb_lt, Hall, Hr.
Qed.

(** C6. With every selection at select-all (a date range covering all
    records or not yet complete, both or neither verification label, both or
    neither sensitivity label, no size category or the category cell of
    every record, no data class) the filter returns the records unchanged,
    on both dashboards. The widgets' own defaults are such selections in
    [app.py], and in [Home.py] when every record has a positive count or
    pandas is older than 3.0; with pandas 3 the default size selection of
    [Home.py] leaves out the missing category and drops the records without
    one, unless no record has a category. *)
Theorem select_all_filter_is_identity :
  (forall df c, App_select_all df c -> App.filtered_df df c = df)
  /\ (forall df c, Home_select_all df c -> Home.filtered_df df c = df)
  /\ (forall df, App.filtered_df df (App.default_criteria df) = df)
  /\ (forall df, Home.filtered_df df (Home.default_criteria before_3 df) = df)
  /\ (forall v df, Forall (fun r => 0 < PwnCount r) df ->
                   Home.filtered_df df (Home.default_criteria v df) = df)
  /\ (forall df, Home.filtered_df df (Home.default_criteria from_3 df)
                 = if existsb (fun r => 0 <? PwnCount r) df
                   then filter (fun r => 0 <? PwnCount r) df
                   else df).
Proof.
  split; [exact App_filter_identity|].
  split; [exact Home_filter_identity|].
  split; [intros df; apply App_filter_identity, App_default_select_all|].
  split; [intros df; apply Home_filter_identity, Home_default_select_all|].
  split; [exact Home_default_positive | exact Home_default_from_3].
Qed.

Lemma select_all_filter_is_identity_witness :
  App.filtered_df (breach_Z :: sample_df)
                  (App.mkCriteria [d 2015 1 1; d 2021 12 31] [] []
                                  [Some "Small (<10k)"; Some "Large (1M-50M)";
                                   Some "Massive (>50M)"; None] [])
  = breach_Z :: sample_df
  /\ Home.filtered_df (breach_Z :: sample_df)
                      (Home.mkCriteria [d 2015 1 1]
                                       ["Unverified"; "Verified"] [] [])
     = breach_Z :: sample_df
  /\ Home.filtered_df sample_df (Home.default_criteria from_3 sample_df)
     = sample_df.
Proof.
  destruct select_all_filter_is_identity as (HA & HH & _ & _ & HP & _).
  split; [|split].
  - apply HA. unfold App_select_all, both_or_neither; cbn.
    split.
    { intros r Hr.
      repeat (destruct Hr as [<- | Hr]; [split; reflexivity|]). destruct Hr. }
    split; [left; reflexivity|]. split; [left; reflexivity|].
    split; [|reflexivity]. right. intros r Hr.
    repeat (destruct Hr as [<- | Hr]; [vm_compute; tauto|]). destruct Hr.
  - apply HH. unfold Home_select_all, both_or_neither; cbn.
    split; [exact I|]. split; [right; tauto|]. split; left; reflexivity.
  - apply HP. repeat constructor; simpl; lia.
Defined.

(** With pandas 3 the defaults of [Home.py] are not the identity: the record
    without a size category is dropped. *)
Lemma Home_default_drops_unbucketed :
  Home.filtered_df [breach_A; breach_Z]
                   (Home.default_criteria from_3 [breach_A; breach_Z])
  = [breach_A]
  /\ Home.filtered_df [breach_A; breach_Z]
                      (Home.default_criteria from_3 [breach_A; breach_Z])
     <> [breach_A; breach_Z].
Proof.
  split; [reflexivity | discriminate].
Qed.

(** ** Class rows and records *)

Lemma filter_incl' {A : Type} (f : A -> bool) (l : list A) :
  incl (filter f l) l.
Proof. intros x Hx. apply filter_In in Hx. tauto. Qed.

Lemma date_filter_incl (date_range : list date) (df : DataFrame) :
  incl (date_filter date_range df) df.
Proof.
  unfold date_filter.
  destruct date_range as [|s [|e [|x rest]]];
    try apply incl_refl; apply filter_incl'.
Qed.

Lemma label_filter_incl (yes no : string) (col : BreachRecord -> bool)
      (status : list string) (df : DataFrame) :
  incl (label_filter yes no col status df) df.
Proof.
  unfold label_filter. destruct status as [|s rest]; [apply incl_refl|].
  destruct (str_in yes (s :: rest) && str_in no (s :: rest));
    [apply incl_refl|].
  destruct (str_in yes (s :: rest)); [apply filter_incl'|].
  destruct (str_in no (s :: rest)); [apply filter_incl' | apply incl_refl].
Qed.

Lemma Home_size_filter_incl (sel : list string) (df : DataFrame) :
  incl (Home.size_filter sel df) df.
Proof. destruct sel; [apply incl_refl | apply filter_incl']. Qed.

Lemma App_size_filter_incl (sel : list (option string)) (df : DataFrame) :
  incl (App.size_filter sel df) df.
Proof. destruct sel; [apply incl_refl | apply filter_incl']. Qed.

Lemma App_data_class_filter_incl (sel : list string) (rows : list ClassRow)
      (df : DataFrame) :
  incl (App.data_class_filter sel rows df) df.
Proof. destruct sel; [apply incl_refl | apply filter_incl']. Qed.

Lemma Home_filtered_incl (df : DataFrame) (c : Home.FilterCriteria) :
  incl (Home.filtered_df df c) df.
Proof.
  intros r H. unfold Home.filtered_df in H.
  apply Home_size_filter_incl, label_filter_incl, label_filter_incl,
    date_filter_incl in H.
  exact H.
Qed.

Lemma App_filtered_incl (df : DataFrame) (c : App.FilterCriteria) :
  incl (App.filtered_df df c) df.
Proof.
  intros r H. unfold App.filtered_df in H.
  apply App_data_class_filter_incl, App_size_filter_incl, label_filter_incl,
    label_filter_incl, date_filter_incl in H.
  exact H.
Qed.

Lemma In_explode (df : DataFrame) (r : BreachRecord) (c : string) :
  In r df -> In c (DataClasses r) -> In (mkRow r (Some c)) (explode df).
Proof.
  intros Hr Hc. unfold explode. apply in_flat_map. exists r. split; [exact Hr|].
  unfold explode_row. destruct (DataClasses r) as [|c0 cs]; [destruct Hc|].
  apply (in_map (fun c => mkRow r (Some c))). exact Hc.
Qed.

(** Any view of the store agrees in membership with the class rows selected
    by its names. *)
Lemma rows_of_round_trip (df filtered_df : DataFrame) :
  incl filtered_df df ->
  (forall row, In row (rows_of (explode df) filtered_df) ->
               In (Name (breach row)) (map Name filtered_df))
  /\ (forall r, In r filtered_df -> DataClasses r <> [] ->
                exists row, In row (rows_of (explode df) filtered_df)
                            /\ breach row = r /\ DataClass row <> None).
Proof.
  intros Hincl. unfold rows_of. split.
  - intros row Hrow. apply filter_In in Hrow. apply str_in_In. tauto.
  - intros r Hr Hne. destruct (DataClasses r) as [|c cs] eqn:E; [congruence|].
    exists (mkRow r (Some c)). split; [|split; [reflexivity | discriminate]].
    apply filter_In. split.
    + apply In_explode; [apply Hincl; exact Hr | rewrite E; left; reflexivity].
    + apply str_in_In. cbn [breach]. apply in_map. exact Hr.
Qed.

(** C8. Under every filter the class rows selected by membership satisfy the
    round trip: each of their names is the name of a filtered record, and
    each filtered record with a non-empty list of data classes has at least
    one row among them. *)
Theorem class_rows_round_trip :
  (forall (df : DataFrame) (c : App.FilterCriteria),
      (forall row, In row (App.filtered_data_classes_df df c) ->
                   In (Name (breach row)) (map Name (App.filtered_df df c)))
      /\ (forall r, In r (App.filtered_df df c) -> DataClasses r <> [] ->
                    exists row, In row (App.filtered_data_classes_df df c)
                                /\ breach row = r /\ DataClass row <> None))
  /\ (forall (df : DataFrame) (c : Home.FilterCriteria),
      (forall row, In row (Home.filtered_data_classes_df df c) ->
                   In (Name (breach row)) (map Name (Home.filtered_df df c)))
      /\ (forall r, In r (Home.filtered_df df c) -> DataClasses r <> [] ->
                    exists row, In row (Home.filtered_data_classes_df df c)
                                /\ breach row = r /\ DataClass row <> None)).
Proof.
  split; intros df c.
  - apply rows_of_round_trip, App_filtered_incl.
  - apply rows_of_round_trip, Home_filtered_incl.
Qed.

(** ** Search *)



(** ** The stable descending sort *)

Section SortDesc.

Context {A : Type} (key : A -> Z).

Lemma insert_desc_perm (a : A) (l : list A) :
  Permutation (insert_desc key a l) (a :: l).
Proof.
  induction l as [|h t IH]; simpl; [apply Permutation_refl|].
  destruct (key h <=? key a); [apply Permutation_refl|].
  eapply Permutation_trans; [apply perm_skip, IH | apply perm_swap].
Qed.

Lemma sort_desc_perm (l : list A) : Permutation (sort_desc key l) l.
Proof.
  induction l as [|a t IH]; simpl; [apply perm_nil|].
  eapply Permutation_trans; [apply insert_desc_perm | apply perm_skip, IH].
Qed.

Lemma insert_desc_sorted (a : A) (l : list A) :
  Sorted (fun x y => key x >= key y) l ->
  Sorted (fun x y => key x >= key y) (insert_desc key a l).
Proof.
  induction l as [|h t IH]; intros Hs; simpl.
  - repeat constructor.
  - destruct (Z.leb_spec (key h) (key a)).
    + constructor; [exact Hs | constructor; lia].
    + inversion Hs as [|? ? Ht Hhd]; subst.
      constructor; [apply IH; exact Ht|].
      destruct t as [|h' t']; simpl.
      * constructor. lia.
      * destruct (key h' <=? key a); constructor; [lia|].
        inversion Hhd; subst. assumption.
Qed.

Lemma sort_desc_sorted (l : list A) :
  StronglySorted (fun x y => key x >= key y) (sort_desc key l).
Proof.
  apply Sorted_StronglySorted.
  - intros x y z Hxy Hyz. lia.
  - induction l as [|a t IH]; simpl; [constructor|].
    apply insert_desc_sorted, IH.
Qed.

(** Rows of one key value come out in the order they went in. *)
Lemma insert_desc_stable (n : Z) (a : A) (l : list A) :
  filter (fun x => key x =? n) (insert_desc key a l)
  = filter (fun x => key x =? n) (a :: l).
Proof.
  induction l as [|h t IH]; [reflexivity|].
  cbn [insert_desc]. destruct (Z.leb_spec (key h) (key a)); [reflexivity|].
  cbn [filter] in *. rewrite IH.
  destruct (Z.eqb_spec (key a) n), (Z.eqb_spec (key h) n);
    try reflexivity; lia.
Qed.

Lemma sort_desc_stable (n : Z) (l : list A) :
  filter (fun x => key x =? n) (sort_desc key l)
  = filter (fun x => key x =? n) l.
Proof.
  induction l as [|a t IH]; [reflexivity|].
  cbn [sort_desc fold_right]. fold (sort_desc key t).
  rewrite insert_desc_stable. cbn [filter]. rewrite IH. reflexivity.
Qed.

End SortDesc.

(** ** The counting table *)

Lemma unique_In_iff (l : list string) (x : string) :
  In x (unique String.eqb l) <-> In x l.
Proof.
  split; [apply unique_incl | apply unique_complete].
  intros a b. apply String.eqb_eq.
Qed.

Lemma str_in_unique (l : list string) (x : string) :
  str_in x (unique String.eqb l) = str_in x l.
Proof.
  destruct (str_in x l) eqn:E.
  - apply (proj2 (str_in_In _ _)), (proj2 (unique_In_iff _ _)),
      (proj1 (str_in_In _ _)). exact E.
  - destruct (str_in x (unique String.eqb l)) eqn:E'; [|reflexivity].
    apply (proj1 (str_in_In _ _)), (proj1 (unique_In_iff _ _)),
      (proj2 (str_in_In _ _)) in E'.
    congruence.
Qed.

Lemma unique_NoDup (l : list string) : NoDup (unique String.eqb l).
Proof.
  induction l as [|a t IH]; simpl; constructor.
  - intros H. apply filter_In in H. destruct H as [_ H].
    rewrite String.eqb_refl in H. discriminate.
  - apply NoDup_filter. exact IH.
Qed.

Lemma unique_snoc (l : list string) (x : string) :
  unique String.eqb (l ++ [x])
  = if str_in x l then unique String.eqb l
    else (unique String.eqb l ++ [x])%list.
Proof.
  induction l as [|a t IH]; [reflexivity|].
  cbn [app unique]. rewrite IH.
  unfold str_in in *. cbn [existsb].
  destruct (existsb (String.eqb x) t).
  - rewrite Bool.orb_true_r. reflexivity.
  - rewrite Bool.orb_false_r, filter_app. cbn [filter].
    rewrite (String.eqb_sym a x).
    destruct (String.eqb x a); cbn [negb]; [rewrite app_nil_r|]; reflexivity.
Qed.

Lemma count_of_snoc (y : string) (l : list string) (x : string) :
  count_of y (l ++ [x]) = count_of y l + (if String.eqb y x then 1 else 0).
Proof.
  induction l as [|a t IH]; simpl; [lia | rewrite IH; lia].
Qed.

Lemma count_of_absent (x : string) (l : list string) :
  str_in x l = false -> count_of x l = 0.
Proof.
  unfold str_in. induction l as [|a t IH]; [reflexivity|].
  cbn [existsb count_of]. intros H. apply Bool.orb_false_iff in H.
  destruct H as [H1 H2]. rewrite H1, (IH H2). reflexivity.
Qed.

Lemma count_of_present (x : string) (l : list string) :
  In x l -> 1 <= count_of x l.
Proof.
  assert (Hnn : forall m, 0 <= count_of x m).
  { induction m as [|a t IH]; simpl; [lia|].
    destruct (String.eqb x a); lia. }
  induction l as [|a t IH]; simpl; [tauto|].
  intros [->|H].
  - rewrite String.eqb_refl. specialize (Hnn t). lia.
  - specialize (IH H). destruct (String.eqb x a); lia.
Qed.

Lemma count_insert_map (x : string) (keys : list string) (g g' : string -> Z) :
  NoDup keys ->
  (forall y, y <> x -> g' y = g y) ->
  g' x = g x + 1 ->
  count_insert x (map (fun y => (y, g y)) keys)
  = if str_in x keys then map (fun y => (y, g' y)) keys
    else (map (fun y => (y, g' y)) keys ++ [(x, 1)])%list.
Proof.
  intros Hnd Hother Hx. induction keys as [|a t IH]; [reflexivity|].
  inversion Hnd as [|? ? Hnotin Hnd']; subst.
  cbn [map count_insert]. unfold str_in in *. cbn [existsb].
  destruct (String.eqb_spec x a) as [->|Hne].
  - cbn [orb]. rewrite Hx. f_equal.
    apply map_ext_in. intros y Hy. rewrite Hother; [reflexivity|].
    intros ->. contradiction.
  - cbn [orb]. rewrite (IH Hnd'). rewrite (Hother a) by congruence.
    destruct (existsb (String.eqb x) t); reflexivity.
Qed.

Lemma hash_counts_snoc (l : list string) (x : string) :
  hash_counts (l ++ [x]) = count_insert x (hash_counts l).
Proof. unfold hash_counts. rewrite fold_left_app. reflexivity. Qed.

(** The table built by counting is the first-encountered table. *)
Lemma hash_counts_first_seen (col : list string) :
  hash_counts col = first_seen_counts col.
Proof.
  induction col as [|x l IH] using rev_ind; [reflexivity|].
  rewrite hash_counts_snoc, IH. unfold first_seen_counts.
  rewrite (count_insert_map x (unique String.eqb l)
             (fun y => count_of y l) (fun y => count_of y (l ++ [x]))).
  - rewrite str_in_unique, unique_snoc.
    destruct (str_in x l) eqn:E; [reflexivity|].
    rewrite map_app. cbn [map]. rewrite count_of_snoc, String.eqb_refl.
    rewrite (count_of_absent _ _ E). reflexivity.
  - apply unique_NoDup.
  - intros y Hy. rewrite count_of_snoc.
    destruct (String.eqb_spec y x); [contradiction | lia].
  - rewrite count_of_snoc, String.eqb_refl. reflexivity.
Qed.

Lemma value_counts_perm (ties : tie_order) (col : list (option string)) :
  rearranges ties ->
  Permutation (value_counts ties col) (first_seen_counts (dropna col)).
Proof.
  intros Hties. unfold value_counts. rewrite <- hash_counts_first_seen.
  eapply Permutation_trans; [apply sort_desc_perm | apply Hties].
Qed.

Lemma StronglySorted_strict {A : Type} (key : A -> Z) (l : list A) :
  StronglySorted (fun a b => key a >= key b) l ->
  NoDup (map key l) ->
  StronglySorted (fun a b => key a > key b) l.
Proof.
  induction 1 as [|a t Ht IH Hall]; intros Hnd; [constructor|].
  cbn [map] in Hnd. inversion Hnd as [|? ? Hnotin Hnd']; subst.
  constructor; [apply IH; exact Hnd'|].
  rewrite Forall_forall in *. intros x Hx. specialize (Hall x Hx).
  assert (key x <> key a).
  { intros Heq. apply Hnotin. rewrite <- Heq. apply in_map. exact Hx. }
  lia.
Qed.

Lemma strictly_sorted_perm_eq {A : Type} (key : A -> Z) (l1 l2 : list A) :
  StronglySorted (fun a b => key a > key b) l1 ->
  StronglySorted (fun a b => key a > key b) l2 ->
  Permutation l1 l2 -> l1 = l2.
Proof.
  intros H1. revert l2. induction H1 as [|a t Ht IH Hall]; intros l2 H2 Hp.
  - apply Permutation_nil in Hp. congruence.
  - destruct l2 as [|b t2];
      [apply Permutation_sym, Permutation_nil in Hp; discriminate|].
    apply StronglySorted_inv in H2. destruct H2 as [Ht2 Hall2].
    rewrite Forall_forall in Hall, Hall2.
    assert (Hab : a = b).
    { assert (Ha : In a (b :: t2))
        by (apply (Permutation_in _ Hp); left; reflexivity).
      assert (Hb : In b (a :: t))
        by (apply (Permutation_in _ (Permutation_sym Hp)); left; reflexivity).
      destruct Ha as [Ha|Ha]; [congruence|].
      destruct Hb as [Hb|Hb]; [congruence|].
      specialize (Hall b Hb). specialize (Hall2 a Ha). lia. }
    subst b. f_equal. apply IH; [exact Ht2|].
    apply (Permutation_cons_inv Hp).
Qed.

(** C7. Whatever order the sort leaves among equal counts, the frequency
    table is in descending order of count and holds exactly the distinct
    values with their numbers of occurrences; under the stable sort values
    of equal count stand in the order in which they were first encountered.
    The column A,A,B,B,B,C gives (B,3),(A,2),(C,1) under every order. *)
Theorem value_counts_descending :
  (forall ties col, rearranges ties ->
     StronglySorted (fun a b => snd a >= snd b) (value_counts ties col))
  /\ (forall ties col, rearranges ties ->
        Permutation (value_counts ties col) (first_seen_counts (dropna col)))
  /\ (forall col n,
         filter (fun e => snd e =? n) (value_counts first_seen_ties col)
         = filter (fun e => snd e =? n) (first_seen_counts (dropna col)))
  /\ (forall ties, rearranges ties ->
        value_counts ties
          [Some "A"; Some "A"; Some "B"; Some "B"; Some "B"; Some "C"]
        = [("B", 3); ("A", 2); ("C", 1)]).
Proof.
  split; [|split; [|split]].
  - intros ties col _. apply sort_desc_sorted.
  - intros ties col Hties. apply value_counts_perm. exact Hties.
  - intros col n. unfold value_counts, first_seen_ties.
    rewrite <- hash_counts_first_seen. apply (sort_desc_stable snd).
  - intros ties Hties.
    set (col := [Some "A"; Some "A"; Some "B"; Some "B"; Some "B"; Some "C"]).
    pose proof (value_counts_perm ties col Hties) as Hp.
    change (first_seen_counts (dropna col))
      with [("A", 2); ("B", 3); ("C", 1)] in Hp.
    apply (strictly_sorted_perm_eq snd).
    + apply StronglySorted_strict; [apply sort_desc_sorted|].
      apply (Permutation_NoDup
               (Permutation_sym (Permutation_map snd Hp))).
      cbn [map snd]. repeat constructor; simpl; intuition lia.
    + repeat constructor; simpl; lia.
    + eapply Permutation_trans; [exact Hp | apply perm_swap].
Qed.

Lemma value_counts_descending_witness :
  value_counts first_seen_ties
    [Some "A"; Some "A"; Some "B"; Some "B"; Some "B"; Some "C"]
  = [("B", 3); ("A", 2); ("C", 1)].
Proof.
  apply (proj2 (proj2 (proj2 value_counts_descending))).
  apply first_seen_ties_rearranges.
Defined.

(** Equal counts need not come out in first-encountered order: reversing
    the counting table is an order an unstable sort may leave. *)
Lemma value_counts_ties_not_first_seen :
  rearranges (@rev (string * Z))
  /\ value_counts (@rev (string * Z)) [Some "A"; Some "B"]
     = [("B", 1); ("A", 1)]
  /\ first_seen_counts (dropna [Some "A"; Some "B"]) = [("A", 1); ("B", 1)]
  /\ ~ (forall ties col n, rearranges ties ->
          filter (fun e => snd e =? n) (value_counts ties col)
          = filter (fun e => snd e =? n) (first_seen_counts (dropna col))).
Proof.
  assert (Hrev : rearranges (@rev (string * Z)))
    by (intros tbl; apply Permutation_sym, Permutation_rev).
  split; [exact Hrev|]. split; [reflexivity|]. split; [reflexivity|].
  intros H. specialize (H (@rev (string * Z)) [Some "A"; Some "B"] 1 Hrev).
  vm_compute in H. discriminate.
Qed.

(** ** Percentages *)

Lemma Qround_half_even_err (q : Q) :
  (Qabs (inject_Z (Qround_half_even q) - q) <= 1 # 2)%Q.
Proof.
  apply Qabs_Qle_condition.
  destruct q as [n d]. unfold Qround_half_even. cbn [Qnum Qden].
  pose proof (Z.div_mod n (Z.pos d) ltac:(lia)) as Hdm.
  pose proof (Z.mod_pos_bound n (Z.pos d) ltac:(lia)) as Hb.
  set (fl := n / Z.pos d) in *. set (r := n mod Z.pos d) in *.
  assert (Hcases : forall z, (z = fl \/ z = fl + 1) ->
             -(Z.pos d) <= 2 * (z * Z.pos d - n) <= Z.pos d ->
             (- (1 # 2) <= inject_Z z - (n # d) <= 1 # 2)%Q).
  { intros z _ Hz. unfold Qle, Qminus, Qplus, Qopp, inject_Z.
    cbn [Qnum Qden]. rewrite ?Pos2Z.inj_mul. lia. }
  destruct (Z.ltb_spec (2 * r) (Z.pos d)); [apply Hcases; [tauto | nia]|].
  destruct (Z.ltb_spec (Z.pos d) (2 * r)); [apply Hcases; [tauto | nia]|].
  destruct (Z.even fl); apply Hcases; try tauto; nia.
Qed.

Lemma pow2_nonneg_eq (e : Z) : 0 <= e -> pow2 e = inject_Z (2 ^ e).
Proof. intros H. unfold pow2. destruct (Z.leb_spec 0 e); [reflexivity | lia]. Qed.

Lemma pow2_neg_eq (e : Z) : e < 0 -> pow2 e = 1 # Z.to_pos (2 ^ (- e)).
Proof. intros H. unfold pow2. destruct (Z.leb_spec 0 e); [lia | reflexivity]. Qed.

Lemma pow2_pos (e : Z) : (0 < pow2 e)%Q.
Proof.
  unfold pow2. destruct (Z.leb_spec 0 e).
  - change 0%Q with (inject_Z 0). rewrite <- Zlt_Qlt.
    apply Z.pow_pos_nonneg; lia.
  - reflexivity.
Qed.

Lemma pow2_shift (e k : Z) :
  0 <= k -> (pow2 (e + k) == pow2 e * inject_Z (2 ^ k))%Q.
Proof.
  intros Hk.
  assert (Hp : forall x, 0 <= x -> Z.pos (Z.to_pos (2 ^ x)) = 2 ^ x).
  { intros x Hx. apply Z2Pos.id. apply Z.pow_pos_nonneg; lia. }
  destruct (Z.leb_spec 0 e) as [He|He].
  - rewrite !pow2_nonneg_eq by lia. rewrite <- inject_Z_mult, Z.pow_add_r by lia.
    reflexivity.
  - rewrite (pow2_neg_eq e He).
    destruct (Z.leb_spec 0 (e + k)) as [Hs|Hs].
    + rewrite pow2_nonneg_eq by lia.
      unfold Qeq, Qmult, inject_Z. cbn [Qnum Qden].
      rewrite Pos2Z.inj_mul, Hp by lia.
      assert (Hk2 : 2 ^ k = 2 ^ (e + k) * 2 ^ (- e))
        by (rewrite <- Z.pow_add_r by lia; f_equal; lia).
      rewrite Hk2. ring.
    + rewrite pow2_neg_eq by lia.
      unfold Qeq, Qmult, inject_Z. cbn [Qnum Qden].
      rewrite Pos2Z.inj_mul, !Hp by lia.
      assert (Hk2 : 2 ^ (- e) = 2 ^ k * 2 ^ (- (e + k)))
        by (rewrite <- Z.pow_add_r by lia; f_equal; lia).
      rewrite Hk2. ring.
Qed.

Lemma ilog2_le (q : Q) : (0 < q)%Q -> (pow2 (ilog2 q) <= q)%Q.
Proof.
  intros Hq. unfold ilog2.
  set (k := Z.log2 (Qnum q) - Z.log2 (Z.pos (Qden q))).
  destruct (Qle_bool (pow2 k) q) eqn:E; [apply Qle_bool_iff; exact E|].
  destruct q as [n d]. cbn [Qnum Qden] in *.
  assert (Hn : 0 < n) by (unfold Qlt in Hq; cbn in Hq; lia).
  destruct (Z.log2_spec n Hn) as [Ha _].
  destruct (Z.log2_spec (Z.pos d) ltac:(lia)) as [_ Hb].
  set (a := Z.log2 n) in *. set (b := Z.log2 (Z.pos d)) in *.
  assert (Ha0 : 0 <= a) by apply Z.log2_nonneg.
  assert (Hb0 : 0 <= b) by apply Z.log2_nonneg.
  destruct (Z.leb_spec 0 (k - 1)) as [Hs|Hs].
  - rewrite pow2_nonneg_eq by lia. unfold Qle, inject_Z. cbn [Qnum Qden].
    assert (2 ^ (k - 1) * 2 ^ (b + 1) = 2 ^ a)
      by (rewrite <- Z.pow_add_r by lia; f_equal; unfold k; lia).
    assert (0 < 2 ^ (k - 1)) by (apply Z.pow_pos_nonneg; lia).
    nia.
  - rewrite pow2_neg_eq by lia. unfold Qle. cbn [Qnum Qden].
    rewrite Z2Pos.id by (apply Z.pow_pos_nonneg; lia).
    assert (2 ^ a * 2 ^ (- (k - 1)) = 2 ^ (b + 1))
      by (rewrite <- Z.pow_add_r by lia; f_equal; unfold k; lia).
    assert (0 < 2 ^ (- (k - 1))) by (apply Z.pow_pos_nonneg; lia).
    nia.
Qed.

(** Rounding to binary64 moves a number by at most 2^-53 of its size. *)
Lemma fl_error (q : Q) :
  (0 <= q)%Q -> (Qabs (fl q - q) <= q * (1 # 9007199254740992))%Q.
Proof.
  intros Hq. unfold fl.
  destruct (Qeq_bool q 0) eqn:E.
  - apply Qeq_bool_iff in E. rewrite E. vm_compute. discriminate.
  - assert (Hpos : (0 < q)%Q).
    { apply Qle_lteq in Hq. destruct Hq as [H|H]; [exact H|].
      symmetry in H. apply Qeq_bool_iff in H. congruence. }
    assert (Habs : Qabs q = q).
    { destruct q as [n d]. unfold Qabs. f_equal. apply Z.abs_eq.
      unfold Qle in Hq. cbn in Hq. lia. }
    rewrite Habs.
    set (e := ilog2 q - 52).
    pose proof (ilog2_le q Hpos) as Hlog.
    replace (ilog2 q) with (e + 52) in Hlog by (unfold e; lia).
    rewrite (pow2_shift e 52) in Hlog by lia.
    pose proof (pow2_pos e) as Hp.
    pose proof (Qround_half_even_err (q / pow2 e)) as Hr.
    apply Qabs_Qle_condition in Hr. apply Qabs_Qle_condition.
    set (m := inject_Z (Qround_half_even (q / pow2 e))) in *.
    assert (Hx : (q == q / pow2 e * pow2 e)%Q) by (field; lra).
    set (x := (q / pow2 e)%Q) in *.
    change (inject_Z (2 ^ 52)) with (4503599627370496 # 1)%Q in Hlog.
    set (p := pow2 e) in *.
    assert (Hlo : ((m - x) * p >= - (1 # 2) * p)%Q) by nra.
    assert (Hhi : ((m - x) * p <= (1 # 2) * p)%Q) by nra.
    split; lra.
Qed.

Lemma inject_Z_half_nonneg (k : Z) : (- (1 # 2) <= inject_Z k)%Q -> 0 <= k.
Proof. unfold Qle, inject_Z. cbn [Qnum Qden Qopp]. lia. Qed.

(** A displayed percentage lies within half a unit of the last decimal of
    the true quotient, up to the error of the binary64 operations. *)
Lemma percent_float_error (denom count : Z) :
  0 <= count <= denom -> 0 < denom ->
  (Qabs (percent_float denom count - percent_exact denom count)
   <= (1 # 20) + (1 # 1000000000))%Q.
Proof.
  intros [Hc0 Hcd] Hd. unfold percent_float, percent_exact, round1.
  assert (Hq : (0 < inject_Z denom)%Q)
    by (change 0%Q with (inject_Z 0); rewrite <- Zlt_Qlt; exact Hd).
  assert (Hq0 : (0 <= inject_Z count / inject_Z denom)%Q).
  { apply Qle_shift_div_l; [exact Hq|]. rewrite Qmult_0_l.
    change 0%Q with (inject_Z 0). rewrite <- Zle_Qle. exact Hc0. }
  assert (Hq1 : (inject_Z count / inject_Z denom <= 1)%Q).
  { apply Qle_shift_div_r; [exact Hq|]. rewrite Qmult_1_l.
    rewrite <- Zle_Qle. exact Hcd. }
  set (q0 := (inject_Z count / inject_Z denom)%Q) in *.
  pose proof (fl_error q0 Hq0) as H1. apply Qabs_Qle_condition in H1.
  set (x1 := fl q0) in *.
  assert (Hy : (0 <= x1 * 100)%Q) by lra.
  pose proof (fl_error _ Hy) as H2. apply Qabs_Qle_condition in H2.
  set (x2 := fl (x1 * 100)) in *.
  assert (Hz : (0 <= x2 * 10)%Q) by lra.
  pose proof (fl_error _ Hz) as H3. apply Qabs_Qle_condition in H3.
  set (x3 := fl (x2 * 10)) in *.
  pose proof (Qround_half_even_err x3) as H4. apply Qabs_Qle_condition in H4.
  assert (Hk : 0 <= Qround_half_even x3)
    by (apply inject_Z_half_nonneg; lra).
  assert (Hk' : (0 <= inject_Z (Qround_half_even x3))%Q)
    by (change 0%Q with (inject_Z 0); rewrite <- Zle_Qle; exact Hk).
  set (k := inject_Z (Qround_half_even x3)) in *.
  assert (Hw : (k == k / 10 * 10)%Q) by field.
  set (w := (k / 10)%Q) in *.
  assert (Hw0 : (0 <= w)%Q) by lra.
  pose proof (fl_error w Hw0) as H5. apply Qabs_Qle_condition in H5.
  set (x4 := fl w) in *.
  apply Qabs_Qle_condition. split; lra.
Qed.

Lemma Qsum_map_error {A : Type} (f g : A -> Q) (t : Q) (xs : list A) :
  (forall x, In x xs -> (Qabs (f x - g x) <= t)%Q) ->
  (Qabs (Qsum (map f xs) - Qsum (map g xs)) <= inject_Z (len xs) * t)%Q.
Proof.
  intros H. apply Qabs_Qle_condition.
  induction xs as [|x xs IH].
  - unfold len. cbn [map Qsum fold_right List.length].
    change (inject_Z (Z.of_nat 0)) with 0%Q. split; lra.
  - unfold len in *. cbn [map Qsum fold_right List.length].
    fold (Qsum (map f xs)). fold (Qsum (map g xs)).
    rewrite Nat2Z.inj_succ, <- Z.add_1_r, inject_Z_plus.
    pose proof (H x (or_introl eq_refl)) as Hx.
    apply Qabs_Qle_condition in Hx.
    assert (IH' := IH (fun y Hy => H y (or_intror Hy))).
    change (inject_Z 1) with 1%Q.
    split; lra.
Qed.

Lemma Qsum_percent_exact (denom : Z) (counts : list Z) :
  denom <> 0 ->
  (Qsum (map (percent_exact denom) counts)
   == inject_Z (Series_sum counts) / inject_Z denom * 100)%Q.
Proof.
  intros Hd.
  assert (Hq : ~ (inject_Z denom == 0)%Q).
  { unfold Qeq, inject_Z. cbn [Qnum Qden]. lia. }
  induction counts as [|c t IH].
  - cbn [map Qsum fold_right Series_sum]. change (inject_Z 0) with 0%Q.
    field. exact Hq.
  - cbn [map Qsum fold_right Series_sum].
    fold (Qsum (map (percent_exact denom) t)). fold (Series_sum t).
    rewrite IH, inject_Z_plus. unfold percent_exact. field. exact Hq.
Qed.

Lemma firstn_incl {A : Type} (n : nat) (l : list A) : incl (firstn n l) l.
Proof.
  revert l. induction n as [|n IH]; intros [|a t] x H; simpl in *; try tauto.
  destruct H as [H|H]; [left; exact H | right; apply (IH t); exact H].
Qed.

Lemma value_counts_positive (ties : tie_order) (col : list (option string))
      (e : string * Z) :
  rearranges ties -> In e (value_counts ties col) -> 1 <= snd e.
Proof.
  intros Hties H.
  apply (Permutation_in _ (value_counts_perm ties col Hties)) in H.
  unfold first_seen_counts in H.
  apply in_map_iff in H. destruct H as [x [<- Hx]]. cbn [snd].
  apply count_of_present, unique_In_iff. exact Hx.
Qed.

Lemma Series_sum_positive (counts : list Z) :
  (forall c, In c counts -> 1 <= c) -> len counts <= Series_sum counts.
Proof.
  unfold len. induction counts as [|c t IH]; intros H; [reflexivity|].
  cbn [Series_sum fold_right List.length]. fold (Series_sum t).
  rewrite Nat2Z.inj_succ.
  assert (1 <= c) by (apply H; left; reflexivity).
  assert (Z.of_nat (List.length t) <= Series_sum t)
    by (apply IH; intros c' Hc'; apply H; right; exact Hc').
  lia.
Qed.

Lemma Series_sum_bounds_entry (counts : list Z) (c : Z) :
  (forall x, In x counts -> 1 <= x) -> In c counts -> c <= Series_sum counts.
Proof.
  induction counts as [|a t IH]; intros H [];
    cbn [Series_sum fold_right]; fold (Series_sum t).
  - subst a.
    pose proof (Series_sum_positive t (fun x Hx => H x (or_intror Hx))).
    unfold len in *. lia.
  - assert (1 <= a) by (apply H; left; reflexivity).
    assert (c <= Series_sum t)
      by (apply IH; [intros x Hx; apply H; right; exact Hx | assumption]).
    lia.
Qed.

(** C2. On the dashboards the percentage column of the top-10 table divides
    each count by the sum of the counts shown, so the displayed percentages
    sum to 100 within the rounding tolerance: 0.05 for each of the at most
    ten rows, and the error of the binary64 operations, below 1e-9 a row. *)
Theorem top_percentages_sum_to_100 (ties : tie_order) (rows : list ClassRow) :
  rearranges ties ->
  top_data_classes ties rows <> [] ->
  let Count := map snd (top_data_classes ties rows) in
  top_Percentage ties rows
  = map (fun c => round1 (fl (fl (inject_Z c / inject_Z (Series_sum Count))
                              * 100))) Count
  /\ 1 <= len Count <= 10
  /\ (Qabs (Qsum (top_Percentage ties rows) - 100)
      <= inject_Z (len Count) * ((1 # 20) + (1 # 1000000000)))%Q.
Proof.
  intros Hties Hne Count.
  assert (Hpos : forall c, In c Count -> 1 <= c).
  { intros c Hc. apply in_map_iff in Hc. destruct Hc as [e [<- He]].
    apply (value_counts_positive ties (map DataClass rows)); [exact Hties|].
    apply (firstn_incl 10). exact He. }
  assert (Hlen : 1 <= len Count <= 10).
  { unfold Count, len. rewrite length_map. split.
    - destruct (top_data_classes ties rows);
        [congruence | simpl List.length; lia].
    - pose proof (firstn_le_length 10 (data_class_counts ties rows)) as Hle.
      unfold top_data_classes, head. lia. }
  pose proof (Series_sum_positive Count Hpos) as Hsum.
  assert (Hexact :
    (Qsum (map (percent_exact (Series_sum Count)) Count) == 100)%Q).
  { rewrite Qsum_percent_exact by lia.
    field. unfold Qeq, inject_Z. cbn [Qnum Qden]. lia. }
  split; [reflexivity|]. split; [exact Hlen|].
  unfold top_Percentage, percent_column. fold Count.
  rewrite <- Hexact.
  apply Qsum_map_error. intros c Hc. apply percent_float_error; [|lia].
  split; [specialize (Hpos c Hc); lia|].
  apply Series_sum_bounds_entry; assumption.
Qed.

Lemma top_percentages_sum_to_100_witness :
  top_data_classes first_seen_ties (explode sample_df) <> []
  /\ (Qabs (Qsum (top_Percentage first_seen_ties (explode sample_df)) - 100)
      <= inject_Z (len (map snd (top_data_classes first_seen_ties
                                   (explode sample_df))))
         * ((1 # 20) + (1 # 1000000000)))%Q.
Proof.
  assert (H : top_data_classes first_seen_ties (explode sample_df) <> [])
    by (vm_compute; discriminate).
  split; [exact H|].
  exact (proj2 (proj2 (top_percentages_sum_to_100 first_seen_ties
                         (explode sample_df) first_seen_ties_rearranges H))).
Defined.

(** The binary64 rounding decides what is shown: of the counts 57 and 23
    the second is shown as 28.7, the double next to it, although the exact
    quotient 28.75 would round to 28.8. *)
Lemma percent_column_57_23 :
  Forall2 Qeq (percent_column [57; 23] 80) [fl (712 # 10); fl (287 # 10)].
Proof. repeat constructor; vm_compute; reflexivity. Qed.

(** The page of data classes divides by the number of filtered records: for
    one record with three classes each class shows 100 percent. *)
Lemma DataClassesPage_percentages_exceed_100 :
  data_class_counts first_seen_ties
    (DataClassesPage.filtered_data_classes_df [breach_B] [])
  = [("Passwords", 1); ("Usernames", 1); ("Credit cards", 1)]
  /\ (Qsum (DataClassesPage.Percentage first_seen_ties
              (DataClassesPage.filtered_df [breach_B] [])
              (DataClassesPage.filtered_data_classes_df [breach_B] []))
      == 300)%Q
  /\ ~ (Qabs (Qsum (DataClassesPage.Percentage first_seen_ties
                      (DataClassesPage.filtered_df [breach_B] [])
                      (DataClassesPage.filtered_data_classes_df [breach_B] []))
              - 100) <= 1)%Q.
Proof.
  split; [reflexivity|]. split; [vm_compute; reflexivity|].
  intros H. vm_compute in H. apply H. reflexivity.
Qed.

(** * Further properties of the pipeline *)

Ltac Zcases :=
  repeat (match goal with
          | |- context [?a <? ?b] => destruct (Z.ltb_spec a b)
          | |- context [?a <=? ?b] => destruct (Z.leb_spec a b)
          end; cbn [andb orb]);
  intros; try lia; try congruence; auto.

(** ** Severity *)

Lemma severity_rows_of (df : DataFrame) (rows : list App.SeverityRow)
      (row : App.SeverityRow) :
  App.severity_df df = ret rows -> In row rows ->
  In (App.record row) df
  /\ 0 < PwnCount (App.record row)
  /\ App.SeverityScore row = severityScore_spec (App.record row)
  /\ App.SeverityCategory row = severityCategory_spec (App.SeverityScore row).
Proof.
  rewrite severity_df_char.
  destruct (forallb (fun r => 0 <? PwnCount r) df) eqn:Hb; [|discriminate].
  intros Heq Hin. unfold ret in Heq. injection Heq as <-.
  apply in_map_iff in Hin. destruct Hin as [r [<- Hr]].
  cbn [App.record App.SeverityScore App.SeverityCategory].
  rewrite forallb_forall in Hb. specialize (Hb r Hr). apply Z.ltb_lt in Hb.
  repeat split; assumption.
Qed.

Lemma HighRiskDataCount_len (r : BreachRecord) :
  App.HighRiskDataCount r
  = len (filter (fun c => str_in c App.high_risk_classes) (DataClasses r)).
Proof. unfold App.HighRiskDataCount. apply Series_sum_ones. Qed.

Lemma sizeScore_spec_cut (pwn : Z) :
  0 < pwn -> cut size_bins [1; 2; 3; 4] pwn = Some (sizeScore_spec pwn).
Proof.
  unfold sizeScore_spec, size_bins, cut, edge_ltb, edge_geb. cut_cases.
Qed.

(** X1. The three components never add up to more than 10, so the cap
    [min(x, 10)] leaves every score as the plain sum. *)
Theorem severity_cap_never_binds (df : DataFrame) (rows : list App.SeverityRow)
        (row : App.SeverityRow) :
  App.severity_df df = ret rows -> In row rows ->
  exists size,
    cut size_bins [1; 2; 3; 4] (PwnCount (App.record row)) = Some size
    /\ App.SeverityScore row
       = size + App.SensitiveScore (App.record row)
         + App.DataClassScore (App.record row).
Proof.
  intros Hdf Hin.
  destruct (severity_rows_of df rows row Hdf Hin) as (_ & Hpos & Hs & _).
  exists (sizeScore_spec (PwnCount (App.record row))).
  split; [apply sizeScore_spec_cut; exact Hpos|].
  rewrite Hs. unfold severityScore_spec, App.SensitiveScore, App.DataClassScore.
  rewrite HighRiskDataCount_len.
  pose proof (sizeScore_spec_range (PwnCount (App.record row))).
  destruct (IsSensitive (App.record row)); lia.
Qed.

Lemma severity_cap_never_binds_witness :
  exists size,
    cut size_bins [1; 2; 3; 4] (PwnCount breach_C) = Some size
    /\ severityScore_spec breach_C
       = size + App.SensitiveScore breach_C + App.DataClassScore breach_C.
Proof.
  exact (severity_cap_never_binds sample_df
           (map (fun r => App.mkSeverity r (severityScore_spec r)
                            (severityCategory_spec (severityScore_spec r)))
                sample_df)
           (App.mkSeverity breach_C (severityScore_spec breach_C)
              (severityCategory_spec (severityScore_spec breach_C)))
           eq_refl (or_intror (or_intror (or_introl eq_refl)))).
Defined.

(** X2. A sensitive breach is never rated Low, and a breach that is not
    sensitive is rated High only when it is Massive (more than 50,000,000
    accounts) and holds at least three high-risk data classes. *)
Theorem severity_and_sensitivity (df : DataFrame) (rows : list App.SeverityRow)
        (row : App.SeverityRow) :
  App.severity_df df = ret rows -> In row rows ->
  (IsSensitive (App.record row) = true ->
   App.SeverityCategory row = Some "Medium"
   \/ App.SeverityCategory row = Some "High")
  /\ (IsSensitive (App.record row) = false ->
      App.SeverityCategory row = Some "High" ->
      50000000 < PwnCount (App.record row)
      /\ 3 <= App.HighRiskDataCount (App.record row)).
Proof.
  intros Hdf Hin.
  destruct (severity_rows_of df rows row Hdf Hin) as (_ & Hpos & Hs & Hc).
  rewrite Hc, Hs, HighRiskDataCount_len.
  unfold severityScore_spec, severityCategory_spec.
  set (n := len (filter (fun c => str_in c App.high_risk_classes)
                        (DataClasses (App.record row)))).
  assert (0 <= n) by (unfold n, len; lia).
  pose proof (sizeScore_spec_range (PwnCount (App.record row))) as Hsize.
  assert (Hmassive : sizeScore_spec (PwnCount (App.record row)) = 4 ->
                     50000000 < PwnCount (App.record row))
    by (unfold sizeScore_spec; Zcases).
  set (s := sizeScore_spec (PwnCount (App.record row))) in *.
  split; intros Hsens; rewrite Hsens.
  - Zcases.
  - Zcases.
Qed.

Lemma severity_and_sensitivity_witness :
  (App.SeverityCategory
     (App.mkSeverity breach_C (severityScore_spec breach_C)
        (severityCategory_spec (severityScore_spec breach_C)))
   = Some "Medium"
   \/ App.SeverityCategory
        (App.mkSeverity breach_C (severityScore_spec breach_C)
           (severityCategory_spec (severityScore_spec breach_C)))
      = Some "High").
Proof.
  apply (proj1 (severity_and_sensitivity sample_df
           (map (fun r => App.mkSeverity r (severityScore_spec r)
                            (severityCategory_spec (severityScore_spec r)))
                sample_df)
           (App.mkSeverity breach_C (severityScore_spec breach_C)
              (severityCategory_spec (severityScore_spec breach_C)))
           eq_refl (or_intror (or_intror (or_introl eq_refl))))).
  reflexivity.
Defined.

(** X3. Of two breaches that agree in sensitivity and data classes the one
    with more affected accounts never scores lower. *)
Theorem severity_monotone_in_size (r1 r2 : BreachRecord)
        (rows : list App.SeverityRow) :
  PwnCount r1 <= PwnCount r2 ->
  IsSensitive r1 = IsSensitive r2 ->
  DataClasses r1 = DataClasses r2 ->
  App.severity_df [r1; r2] = ret rows ->
  exists row1 row2,
    rows = [row1; row2]
    /\ App.record row1 = r1 /\ App.record row2 = r2
    /\ App.SeverityScore row1 <= App.SeverityScore row2.
Proof.
  intros Hle Hsens Hdc. rewrite severity_df_char.
  destruct (forallb (fun r => 0 <? PwnCount r) [r1; r2]); [|discriminate].
  intros Heq. unfold ret in Heq. injection Heq as <-.
  cbn [map]. do 2 eexists. split; [reflexivity|].
  cbn [App.record App.SeverityScore]. split; [reflexivity|]. split; [reflexivity|].
  unfold severityScore_spec, sizeScore_spec. rewrite Hsens, Hdc.
  set (k := (if IsSensitive r2 then 3 else 0)
            + Z.min 3 (len (filter (fun c => str_in c App.high_risk_classes)
                                   (DataClasses r2)))).
  assert (Hmono : forall a b, a <= b -> Z.min 10 (a + k) <= Z.min 10 (b + k))
    by (intros; lia).
  unfold k in *. rewrite <- !Z.add_assoc. apply Hmono. Zcases.
Qed.

Lemma severity_monotone_in_size_witness :
  exists row1 row2,
    [App.mkSeverity breach_A 1 (Some "Low");
     App.mkSeverity breach_A_large 3 (Some "Low")]
    = [row1; row2]
    /\ App.record row1 = breach_A /\ App.record row2 = breach_A_large
    /\ App.SeverityScore row1 <= App.SeverityScore row2.
Proof.
  apply (severity_monotone_in_size breach_A breach_A_large);
    try reflexivity.
  simpl. lia.
Defined.

Lemma sort_desc_In {A : Type} (key : A -> Z) (l : list A) (x : A) :
  In x (sort_desc key l) <-> In x l.
Proof.
  split; apply Permutation_in;
    [|apply Permutation_sym]; apply sort_desc_perm.
Qed.

(** X4. The table of high-severity breaches holds exactly the scored rows
    with a score of 7 or more, highest score first. *)
Theorem high_severity_from_seven (df : DataFrame) (rows : list App.SeverityRow) :
  App.severity_df df = ret rows ->
  (forall row, In row (high_severity rows)
               <-> In row rows /\ 7 <= App.SeverityScore row)
  /\ StronglySorted (fun a b => App.SeverityScore a >= App.SeverityScore b)
                    (high_severity rows).
Proof.
  intros Hdf. split; [|apply sort_desc_sorted].
  intros row. unfold high_severity. rewrite sort_desc_In, filter_In.
  split; intros [Hin H]; (split; [exact Hin|]);
    destruct (severity_rows_of df rows row Hdf Hin) as (_ & _ & Hs & Hc);
    pose proof (severityScore_spec_range (App.record row)) as Hr;
    rewrite <- Hs in Hr.
  - apply cell_eqb_eq in H. rewrite Hc in H.
    unfold severityCategory_spec in H. revert H. Zcases.
  - apply cell_eqb_eq. rewrite Hc. unfold severityCategory_spec. Zcases.
Qed.

Lemma high_severity_from_seven_witness :
  StronglySorted (fun a b => App.SeverityScore a >= App.SeverityScore b)
    (high_severity
       (map (fun r => App.mkSeverity r (severityScore_spec r)
                        (severityCategory_spec (severityScore_spec r)))
            sample_df)).
Proof.
  exact (proj2 (high_severity_from_seven sample_df _ eq_refl)).
Defined.

(** ** Filter stages *)

(** X5. A date range whose end lies before its start selects nothing. *)
Theorem date_filter_reversed_range (start_date end_date : date) (df : DataFrame) :
  date_leb start_date end_date = false ->
  date_filter [start_date; end_date] df = [].
Proof.
  intros Hrev. unfold date_filter.
  induction df as [|r t IH]; [reflexivity|].
  cbn [filter]. rewrite IH.
  destruct (date_leb start_date (BreachDate r)) eqn:E1; [|reflexivity].
  destruct (date_leb (BreachDate r) end_date) eqn:E2; [|reflexivity].
  rewrite (date_leb_trans _ _ _ E1 E2) in Hrev. discriminate.
Qed.

Lemma date_filter_reversed_range_witness :
  date_filter [d 2020 1 1; d 2019 12 31] sample_df = [].
Proof.
  apply date_filter_reversed_range. reflexivity.
Defined.

Lemma label_filter_single (yes no : string) (col : BreachRecord -> bool)
      (df : DataFrame) :
  yes <> no ->
  label_filter yes no col [yes] df = filter (fun r => Bool.eqb (col r) true) df
  /\ label_filter yes no col [no] df = filter (fun r => Bool.eqb (col r) false) df.
Proof.
  intros Hne. unfold label_filter, str_in. cbn [existsb].
  rewrite !String.eqb_refl.
  destruct (String.eqb_spec yes no) as [|_]; [contradiction|].
  destruct (String.eqb_spec no yes) as [|_]; [congruence|].
  split; reflexivity.
Qed.

Lemma filter_split_len {A : Type} (f : A -> bool) (l : list A) :
  len (filter f l) + len (filter (fun x => negb (f x)) l) = len l.
Proof.
  unfold len. induction l as [|a t IH]; [reflexivity|].
  cbn [filter]. destruct (f a); cbn [negb List.length]; lia.
Qed.

(** X6. Selecting one verification label keeps exactly the records with that
    flag, and the two single-label selections split the frame: their sizes
    add up to the size of the input. The sensitivity filter behaves alike. *)
Theorem single_label_partition (df : DataFrame) :
  (forall r, In r (verification_filter ["Verified"] df)
             <-> In r df /\ IsVerified r = true)
  /\ (forall r, In r (verification_filter ["Unverified"] df)
                <-> In r df /\ IsVerified r = false)
  /\ len (verification_filter ["Verified"] df)
     + len (verification_filter ["Unverified"] df) = len df
  /\ (forall r, In r (sensitivity_filter ["Sensitive"] df)
                <-> In r df /\ IsSensitive r = true)
  /\ (forall r, In r (sensitivity_filter ["Non-Sensitive"] df)
                <-> In r df /\ IsSensitive r = false)
  /\ len (sensitivity_filter ["Sensitive"] df)
     + len (sensitivity_filter ["Non-Sensitive"] df) = len df.
Proof.
  unfold verification_filter, sensitivity_filter.
  destruct (label_filter_single "Verified" "Unverified" IsVerified df
              ltac:(discriminate)) as [-> ->].
  destruct (label_filter_single "Sensitive" "Non-Sensitive" IsSensitive df
              ltac:(discriminate)) as [-> ->].
  assert (Hiff : forall (col : BreachRecord -> bool) b r,
             In r (filter (fun r => Bool.eqb (col r) b) df)
             <-> In r df /\ col r = b).
  { intros col b r. rewrite filter_In, Bool.eqb_true_iff. tauto. }
  assert (Hlen : forall col : BreachRecord -> bool,
             len (filter (fun r => Bool.eqb (col r) true) df)
             + len (filter (fun r => Bool.eqb (col r) false) df) = len df).
  { intros col. rewrite <- (filter_split_len (fun r => Bool.eqb (col r) true) df).
    f_equal. f_equal. apply filter_ext. intros r. destruct (col r); reflexivity. }
  split; [intros r; apply Hiff|]. split; [intros r; apply Hiff|].
  split; [apply Hlen|].
  split; [intros r; apply Hiff|]. split; [intros r; apply Hiff | apply Hlen].
Qed.

(** X7. When the four named size categories are selected, the size filter
    keeps exactly the records with a positive count: a record with
    [PwnCount <= 0] has no named category and is dropped, on both
    dashboards. *)
Theorem named_sizes_drop_unbucketed (df : DataFrame) (r : BreachRecord) :
  (In r (App.size_filter (map Some size_labels) df)
   <-> In r df /\ 0 < PwnCount r)
  /\ (In r (Home.size_filter size_labels df) <-> In r df /\ 0 < PwnCount r).
Proof.
  unfold App.size_filter, Home.size_filter, size_labels. cbn [map].
  rewrite !filter_In.
  assert (HA : cell_in (BreachSizeCategory (PwnCount r))
                 [Some "Small (<10k)"; Some "Medium (10k-1M)";
                  Some "Large (1M-50M)"; Some "Massive (>50M)"] = true
               <-> 0 < PwnCount r).
  { unfold BreachSizeCategory, size_bins, size_labels, cut, edge_ltb, edge_geb.
    split; cut_cases. }
  assert (HH : str_in (BreachSizeCategory_str (PwnCount r))
                 ["Small (<10k)"; "Medium (10k-1M)";
                  "Large (1M-50M)"; "Massive (>50M)"] = true
               <-> 0 < PwnCount r).
  { unfold BreachSizeCategory_str, astype_str, BreachSizeCategory, size_bins,
      size_labels, cut, edge_ltb, edge_geb.
    split; cut_cases. }
  rewrite HA, HH. tauto.
Qed.

(** ** Trend windows *)

(** X8. The two windows of the trend are disjoint and together hold exactly
    the records of the last four years: breaches older than
    [current_year - 4] take no part in the comparison. *)
Theorem trend_windows (current_year : Z) (df : DataFrame) :
  recent_count current_year df + previous_count current_year df
  = len (filter (fun r => BreachYear r >=? current_year - 4) df)
  /\ forall r, ~ (In r (filter (fun r => BreachYear r >=? current_year - 2) df)
                  /\ In r (filter (fun r => (BreachYear r <? current_year - 2)
                                            && (BreachYear r >=? current_year - 4))
                                  df)).
Proof.
  split.
  - unfold recent_count, previous_count, len.
    induction df as [|r t IH]; [reflexivity|].
    cbn [filter].
    destruct (Z.geb_spec (BreachYear r) (current_year - 2)),
      (Z.ltb_spec (BreachYear r) (current_year - 2)),
      (Z.geb_spec (BreachYear r) (current_year - 4));
      cbn [andb List.length]; lia.
  - intros r [H1 H2]. apply filter_In in H1. apply filter_In in H2.
    destruct H1 as [_ H1], H2 as [_ H2].
    apply Bool.andb_true_iff in H2. destruct H2 as [H2 _].
    apply Z.ltb_lt in H2. apply Z.geb_le in H1. lia.
Qed.

(** ** Overview metrics *)




(** ** Exploded rows *)

Lemma dropna_app {A : Type} (a b : list (option A)) :
  dropna (a ++ b) = (dropna a ++ dropna b)%list.
Proof. unfold dropna. apply flat_map_app. Qed.

Lemma dropna_map_Some {A : Type} (l : list A) : dropna (map Some l) = l.
Proof. induction l as [|a t IH]; simpl; congruence. Qed.

Lemma explode_row_column (r : BreachRecord) :
  dropna (map DataClass (explode_row r)) = DataClasses r.
Proof.
  unfold explode_row. destruct (DataClasses r) as [|c cs]; [reflexivity|].
  rewrite map_map. cbn [DataClass]. apply (dropna_map_Some (c :: cs)).
Qed.

Lemma explode_row_inv (r : BreachRecord) (row : ClassRow) :
  In row (explode_row r) ->
  breach row = r
  /\ forall c, DataClass row = Some c -> In c (DataClasses r).
Proof.
  unfold explode_row. destruct (DataClasses r) as [|c0 cs].
  - intros [<-|[]]. split; [reflexivity | discriminate].
  - intros H. apply in_map_iff in H. destruct H as [c [<- Hc]].
    split; [reflexivity|]. cbn [DataClass]. intros c' [= <-]. exact Hc.
Qed.

Lemma explode_inv (df : DataFrame) (row : ClassRow) :
  In row (explode df) ->
  In (breach row) df
  /\ forall c, DataClass row = Some c -> In c (DataClasses (breach row)).
Proof.
  unfold explode. intros H. apply in_flat_map in H. destruct H as [r [Hr Hrow]].
  destruct (explode_row_inv r row Hrow) as [-> Hc]. split; assumption.
Qed.

Lemma explode_row_len (r : BreachRecord) :
  len (explode_row r) = Z.max 1 (len (DataClasses r)).
Proof.
  unfold explode_row, len. destruct (DataClasses r) as [|c cs]; [reflexivity|].
  rewrite length_map. simpl List.length. lia.
Qed.

(** X10. Exploding loses no class and no record: the exploded column, NaN
    left out, is the concatenation of all class lists in store order; a
    record gives one row per class, and one NaN row when it has none, so
    every record has a row. *)
Theorem explode_keeps_classes_and_records (df : DataFrame) :
  dropna (map DataClass (explode df)) = flat_map DataClasses df
  /\ len (explode df)
     = Series_sum (map (fun r => Z.max 1 (len (DataClasses r))) df)
  /\ (forall r, In r df -> exists row, In row (explode df) /\ breach row = r)
  /\ (forall row, In row (explode df) -> In (breach row) df).
Proof.
  split; [|split; [|split]].
  - induction df as [|r t IH]; [reflexivity|].
    cbn [explode flat_map] in *. rewrite map_app, dropna_app, explode_row_column.
    f_equal. exact IH.
  - induction df as [|r t IH]; [reflexivity|].
    change (explode (r :: t)) with (explode_row r ++ explode t)%list.
    change (Series_sum (map (fun r => Z.max 1 (len (DataClasses r))) (r :: t)))
      with (Z.max 1 (len (DataClasses r))
            + Series_sum (map (fun r => Z.max 1 (len (DataClasses r))) t)).
    rewrite <- IH, <- explode_row_len. unfold len.
    rewrite length_app, Nat2Z.inj_add. reflexivity.
  - intros r Hr. unfold explode.
    assert (Hne : exists row, In row (explode_row r)).
    { unfold explode_row. destruct (DataClasses r); eexists; left; reflexivity. }
    destruct Hne as [row Hrow]. exists row. split.
    + apply in_flat_map. exists r. split; assumption.
    + apply (explode_row_inv r row Hrow).
  - intros row Hrow. apply (explode_inv df row Hrow).
Qed.

(** ** Unique names *)

Lemma NoDup_map_inj {A B : Type} (f : A -> B) (l : list A) (x y : A) :
  NoDup (map f l) -> In x l -> In y l -> f x = f y -> x = y.
Proof.
  induction l as [|a t IH]; [intros _ []|].
  cbn [map]. intros Hnd Hx Hy Heq. inversion Hnd as [|? ? Hnotin Hnd']; subst.
  destruct Hx as [->|Hx], Hy as [->|Hy].
  - reflexivity.
  - exfalso. apply Hnotin. rewrite Heq. apply in_map. exact Hy.
  - exfalso. apply Hnotin. rewrite <- Heq. apply in_map. exact Hx.
  - apply IH; assumption.
Qed.

Lemma filter_explode_row (f : string -> bool) (r : BreachRecord) :
  filter (fun row => f (Name (breach row))) (explode_row r)
  = if f (Name r) then explode_row r else [].
Proof.
  unfold explode_row. destruct (DataClasses r) as [|c0 cs].
  - cbn [filter breach]. destruct (f (Name r)); reflexivity.
  - generalize (c0 :: cs). intros l. induction l as [|c t IH].
    + destruct (f (Name r)); reflexivity.
    + cbn [map filter breach]. rewrite IH. destruct (f (Name r)); reflexivity.
Qed.

Lemma rows_of_flat (df filtered_df : DataFrame) :
  rows_of (explode df) filtered_df
  = flat_map (fun r => if str_in (Name r) (map Name filtered_df)
                       then explode_row r else []) df.
Proof.
  unfold rows_of, explode. induction df as [|r t IH]; [reflexivity|].
  cbn [flat_map]. rewrite filter_app, IH. f_equal.
  apply (filter_explode_row (fun n => str_in n (map Name filtered_df))).
Qed.

Lemma flat_map_if {A B : Type} (p : A -> bool) (g : A -> list B) (l : list A) :
  flat_map (fun a => if p a then g a else []) l = flat_map g (filter p l).
Proof.
  induction l as [|a t IH]; [reflexivity|].
  cbn [flat_map filter]. rewrite IH. destruct (p a); reflexivity.
Qed.

Lemma flat_map_ext_in' {A B : Type} (f g : A -> list B) (l : list A) :
  (forall a, In a l -> f a = g a) -> flat_map f l = flat_map g l.
Proof.
  induction l as [|a t IH]; intros H; [reflexivity|].
  cbn [flat_map]. rewrite (H a (or_introl eq_refl)), IH; [reflexivity|].
  intros b Hb. apply H. right. exact Hb.
Qed.

Lemma name_in_selection (p : BreachRecord -> bool) (df : DataFrame)
      (r : BreachRecord) :
  NoDup (map Name df) -> In r df ->
  str_in (Name r) (map Name (filter p df)) = p r.
Proof.
  intros Hnd Hr. destruct (p r) eqn:Hp.
  - apply str_in_In. apply in_map. apply filter_In. split; assumption.
  - destruct (str_in (Name r) (map Name (filter p df))) eqn:E; [|reflexivity].
    apply str_in_In, in_map_iff in E. destruct E as [r' [Hname Hr']].
    apply filter_In in Hr'. destruct Hr' as [Hin' Hp'].
    rewrite (NoDup_map_inj Name df r' r Hnd Hin' Hr Hname) in Hp'. congruence.
Qed.

Lemma rows_of_selection (p : BreachRecord -> bool) (df : DataFrame) :
  NoDup (map Name df) ->
  rows_of (explode df) (filter p df) = explode (filter p df).
Proof.
  intros Hnd. rewrite rows_of_flat. unfold explode. rewrite <- flat_map_if.
  apply flat_map_ext_in'. intros r Hr.
  rewrite (name_in_selection p df r Hnd Hr). reflexivity.
Qed.

(** ** The pipelines as masks *)

Lemma filter_fuse {A : Type} (p q : A -> bool) (l : list A) :
  filter p (filter q l) = filter (fun x => q x && p x) l.
Proof.
  induction l as [|a t IH]; [reflexivity|].
  cbn [filter]. destruct (q a); cbn [filter andb]; rewrite IH; reflexivity.
Qed.

Lemma filter_true {A : Type} (l : list A) : filter (fun _ => true) l = l.
Proof. apply filter_all. reflexivity. Qed.

Lemma date_filter_mask (date_range : list date) (df : DataFrame) :
  date_filter date_range df = filter (date_keeps date_range) df.
Proof.
  unfold date_filter, date_keeps.
  destruct date_range as [|s [|e [|x rest]]];
    try (symmetry; apply filter_true); reflexivity.
Qed.

Lemma label_filter_mask (yes no : string) (col : BreachRecord -> bool)
      (status : list string) (df : DataFrame) :
  label_filter yes no col status df
  = filter (fun r => label_keeps yes no status (col r)) df.
Proof.
  unfold label_filter, label_keeps.
  destruct status as [|s rest]; [symmetry; apply filter_true|].
  destruct (str_in yes (s :: rest) && str_in no (s :: rest));
    [symmetry; apply filter_true|].
  destruct (str_in yes (s :: rest)); [reflexivity|].
  destruct (str_in no (s :: rest)); [reflexivity | symmetry; apply filter_true].
Qed.

Lemma Home_size_filter_mask (sel : list string) (df : DataFrame) :
  Home.size_filter sel df
  = filter (fun r => match sel with
                     | [] => true
                     | _ :: _ => str_in (BreachSizeCategory_str (PwnCount r)) sel
                     end) df.
Proof. destruct sel; [symmetry; apply filter_true | reflexivity]. Qed.

Lemma App_size_filter_mask (sel : list (option string)) (df : DataFrame) :
  App.size_filter sel df
  = filter (fun r => match sel with
                     | [] => true
                     | _ :: _ => cell_in (BreachSizeCategory (PwnCount r)) sel
                     end) df.
Proof. destruct sel; [symmetry; apply filter_true | reflexivity]. Qed.

Lemma Home_filtered_mask (df : DataFrame) (c : Home.FilterCriteria) :
  Home.filtered_df df c
  = filter (fun r =>
              date_keeps (Home.date_range c) r
              && label_keeps "Verified" "Unverified"
                             (Home.verification_status c) (IsVerified r)
              && label_keeps "Sensitive" "Non-Sensitive"
                             (Home.sensitivity_status c) (IsSensitive r)
              && match Home.breach_size c with
                 | [] => true
                 | _ :: _ => str_in (BreachSizeCategory_str (PwnCount r))
                                    (Home.breach_size c)
                 end) df.
Proof.
  unfold Home.filtered_df, verification_filter, sensitivity_filter.
  rewrite date_filter_mask, !label_filter_mask, Home_size_filter_mask,
    !filter_fuse.
  apply filter_ext. intros r. rewrite ?Bool.andb_assoc. reflexivity.
Qed.

Lemma App_filtered_selection (df : DataFrame) (c : App.FilterCriteria) :
  exists p, App.filtered_df df c = filter p df.
Proof.
  unfold App.filtered_df, verification_filter, sensitivity_filter.
  rewrite date_filter_mask, !label_filter_mask, App_size_filter_mask,
    !filter_fuse.
  unfold App.data_class_filter.
  destruct (App.selected_data_classes c); eexists;
    [reflexivity | rewrite filter_fuse; reflexivity].
Qed.

(** X11. On the home page every record is kept or dropped on its own
    fields: filtering a store made of two parts is filtering each part, and
    filtering the result again with the same criteria changes nothing. *)
Theorem Home_filter_row_wise (c : Home.FilterCriteria) (df1 df2 : DataFrame) :
  Home.filtered_df (df1 ++ df2)%list c
  = (Home.filtered_df df1 c ++ Home.filtered_df df2 c)%list
  /\ Home.filtered_df (Home.filtered_df df1 c) c = Home.filtered_df df1 c.
Proof.
  rewrite !Home_filtered_mask. split; [apply filter_app|].
  rewrite filter_fuse. apply filter_ext. intros r. apply Bool.andb_diag.
Qed.

(** X12. When the names of the store are unique, the class rows selected by
    name are exactly the rows obtained by exploding the filtered records, on
    both dashboards. *)
Theorem class_rows_are_exploded_records (df : DataFrame) :
  NoDup (map Name df) ->
  (forall c, App.filtered_data_classes_df df c = explode (App.filtered_df df c))
  /\ (forall c, Home.filtered_data_classes_df df c
                = explode (Home.filtered_df df c)).
Proof.
  intros Hnd. split; intros c.
  - unfold App.filtered_data_classes_df.
    destruct (App_filtered_selection df c) as [p ->].
    apply rows_of_selection. exact Hnd.
  - unfold Home.filtered_data_classes_df. rewrite Home_filtered_mask.
    apply rows_of_selection. exact Hnd.
Qed.

Lemma class_rows_are_exploded_records_witness :
  App.filtered_data_classes_df sample_df
    (App.mkCriteria [] ["Verified"] [] [] ["Passwords"])
  = explode (App.filtered_df sample_df
               (App.mkCriteria [] ["Verified"] [] [] ["Passwords"])).
Proof.
  apply (proj1 (class_rows_are_exploded_records sample_df
                  ltac:(repeat constructor; simpl; intuition discriminate))).
Defined.



(** X14. With unique names the class rows charted for sensitive breaches
    are exactly the class rows of filtered records flagged sensitive. *)
Theorem sensitive_rows_are_sensitive (df filtered_df : DataFrame)
        (row : ClassRow) :
  NoDup (map Name df) -> incl filtered_df df ->
  (In row (sensitive_data_classes (explode df) filtered_df)
   <-> In row (explode df) /\ In (breach row) filtered_df
       /\ IsSensitive (breach row) = true).
Proof.
  intros Hnd Hincl. unfold sensitive_data_classes, rows_of, sensitive_breaches.
  rewrite filter_In, str_in_In, in_map_iff.
  split.
  - intros [Hrow [r [Hname Hr]]]. apply filter_In in Hr. destruct Hr as [Hr Hs].
    destruct (explode_inv df row Hrow) as [Hb _].
    assert (r = breach row)
      by (apply (NoDup_map_inj Name df); auto).
    subst r. apply Bool.eqb_prop in Hs. repeat split; assumption.
  - intros (Hrow & Hb & Hs). split; [exact Hrow|].
    exists (breach row). split; [reflexivity|].
    apply filter_In. split; [exact Hb | rewrite Hs; reflexivity].
Qed.

Lemma sensitive_rows_are_sensitive_witness :
  In (mkRow breach_C (Some "Passwords"))
     (sensitive_data_classes (explode sample_df) [breach_A; breach_C])
  <-> In (mkRow breach_C (Some "Passwords")) (explode sample_df)
      /\ In breach_C [breach_A; breach_C] /\ IsSensitive breach_C = true.
Proof.
  apply (sensitive_rows_are_sensitive sample_df [breach_A; breach_C]).
  - repeat constructor; simpl; intuition discriminate.
  - intros x Hx. simpl in *. tauto.
Defined.

(** ** Frequency tables *)

Lemma Series_sum_cons (c : Z) (t : list Z) :
  Series_sum (c :: t) = c + Series_sum t.
Proof. reflexivity. Qed.

Lemma Series_sum_perm (l l' : list Z) :
  Permutation l l' -> Series_sum l = Series_sum l'.
Proof.
  induction 1 as [|x l l' _ IH|x y l|l l' l'' _ IH1 _ IH2];
    rewrite ?Series_sum_cons; lia.
Qed.

Lemma count_insert_sum (x : string) (tbl : list (string * Z)) :
  Series_sum (map snd (count_insert x tbl)) = Series_sum (map snd tbl) + 1.
Proof.
  induction tbl as [|[y n] t IH]; [reflexivity|].
  cbn [count_insert]. destruct (String.eqb x y); cbn [map snd];
    rewrite !Series_sum_cons; [|rewrite IH]; lia.
Qed.

Lemma hash_counts_sum (col : list string) :
  Series_sum (map snd (hash_counts col)) = len col.
Proof.
  unfold hash_counts, len.
  assert (H : forall tbl,
             Series_sum (map snd (fold_left (fun tbl x => count_insert x tbl)
                                            col tbl))
             = Series_sum (map snd tbl) + Z.of_nat (List.length col)).
  { induction col as [|x t IH]; intros tbl; cbn [fold_left List.length]; [lia|].
    rewrite IH, count_insert_sum. lia. }
  rewrite H. reflexivity.
Qed.

Lemma first_seen_counts_In (l : list string) (k : string) (n : Z) :
  In (k, n) (first_seen_counts l) <-> In k l /\ n = count_of k l.
Proof.
  unfold first_seen_counts. rewrite in_map_iff. split.
  - intros [x [[= <- <-] Hx]]. split; [apply unique_In_iff; exact Hx | reflexivity].
  - intros [Hk ->]. exists k. split; [reflexivity | apply unique_In_iff; exact Hk].
Qed.

Lemma value_counts_In (ties : tie_order) (col : list (option string))
      (k : string) (n : Z) :
  rearranges ties ->
  (In (k, n) (value_counts ties col)
   <-> In k (dropna col) /\ n = count_of k (dropna col)).
Proof.
  intros Hties. rewrite <- first_seen_counts_In.
  split; apply Permutation_in;
    [|apply Permutation_sym]; apply value_counts_perm; exact Hties.
Qed.

(** X15. A frequency table accounts for every counted cell exactly once: its
    values are distinct, each stands with its number of occurrences, and the
    counts add up to the number of cells that are not NaN. *)
Theorem value_counts_accounts_for_all (ties : tie_order)
        (col : list (option string)) :
  rearranges ties ->
  NoDup (map fst (value_counts ties col))
  /\ (forall k n, In (k, n) (value_counts ties col)
                  <-> In k (dropna col) /\ n = count_of k (dropna col))
  /\ Series_sum (map snd (value_counts ties col)) = len (dropna col).
Proof.
  intros Hties. split; [|split].
  - apply (Permutation_NoDup
             (Permutation_sym
                (Permutation_map fst (value_counts_perm ties col Hties)))).
    unfold first_seen_counts. rewrite map_map. cbn [fst]. rewrite map_id.
    apply unique_NoDup.
  - intros k n. apply value_counts_In. exact Hties.
  - rewrite (Series_sum_perm _ _
               (Permutation_map snd (value_counts_perm ties col Hties))).
    rewrite <- hash_counts_first_seen. apply hash_counts_sum.
Qed.

Lemma value_counts_accounts_for_all_witness :
  NoDup (map fst (value_counts first_seen_ties
                    (map DataClass (explode sample_df))))
  /\ Series_sum (map snd (value_counts first_seen_ties
                            (map DataClass (explode sample_df))))
     = len (dropna (map DataClass (explode sample_df))).
Proof.
  destruct (value_counts_accounts_for_all first_seen_ties
              (map DataClass (explode sample_df))
              first_seen_ties_rearranges) as (H1 & _ & H3).
  split; assumption.
Defined.

Lemma count_of_nonneg (x : string) (l : list string) : 0 <= count_of x l.
Proof.
  induction l as [|a t IH]; simpl; [lia|]. destruct (String.eqb x a); lia.
Qed.

Lemma value_counts_head_max (ties : tie_order) (col : list (option string))
      (k : string) (n : Z) (rest : list (string * Z)) :
  rearranges ties ->
  value_counts ties col = (k, n) :: rest ->
  In k (dropna col)
  /\ n = count_of k (dropna col)
  /\ forall c, count_of c (dropna col) <= n.
Proof.
  intros Hties Hvc.
  assert (Hhead : In (k, n) (value_counts ties col))
    by (rewrite Hvc; left; reflexivity).
  apply (value_counts_In ties col k n Hties) in Hhead.
  destruct Hhead as [Hk Hn].
  split; [exact Hk|]. split; [exact Hn|].
  intros c. destruct (str_in c (dropna col)) eqn:E.
  - apply str_in_In in E.
    assert (Hc : In (c, count_of c (dropna col)) (value_counts ties col))
      by (apply (value_counts_In ties col _ _ Hties);
          split; [exact E | reflexivity]).
    pose proof (sort_desc_sorted snd (ties (hash_counts (dropna col)))) as Hs.
    fold (value_counts ties col) in Hs. rewrite Hvc in Hs, Hc.
    destruct Hc as [[= -> _]|Hc]; [lia|].
    apply StronglySorted_inv in Hs. destruct Hs as [_ Hall].
    rewrite Forall_forall in Hall. specialize (Hall _ Hc). cbn [snd] in Hall. lia.
  - rewrite (count_of_absent _ _ E).
    pose proof (count_of_present k (dropna col) Hk). lia.
Qed.

Lemma value_counts_nil (ties : tie_order) (col : list (option string)) :
  rearranges ties ->
  (value_counts ties col = [] <-> dropna col = []).
Proof.
  intros Hties. split; intros H.
  - pose proof (hash_counts_sum (dropna col)) as Hsum.
    assert (Hh : hash_counts (dropna col) = []).
    { apply Permutation_nil. rewrite <- H. rewrite hash_counts_first_seen.
      apply value_counts_perm. exact Hties. }
    rewrite Hh in Hsum. unfold len in Hsum.
    destruct (dropna col); [reflexivity | simpl in Hsum; lia].
  - apply value_counts_no_cells; assumption.
Qed.

Lemma App_insights_most_common (ties : tie_order) (current_year : Z)
      (filtered_df : DataFrame) (rows : list ClassRow) (ins : InsightSet) :
  App.insights ties current_year filtered_df rows = ret ins ->
  most_common_data_class ins
  = match data_class_counts ties rows with
    | [] => "N/A"
    | top :: _ => fst top
    end.
Proof.
  unfold App.insights.
  destruct (data_class_counts ties rows) as [|top rest];
    destruct filtered_df as [|r t]; cbn [App.empty negb iloc0 bind ret].
  - intros [= <-]. reflexivity.
  - destruct (nlargest 1 (r :: t)); cbn [iloc0 bind ret raise];
      [discriminate | intros [= <-]; reflexivity].
  - intros [= <-]. reflexivity.
  - destruct (nlargest 1 (r :: t)); cbn [iloc0 bind ret raise];
      [discriminate | intros [= <-]; reflexivity].
Qed.

(** X16. The most common data class reported by [app.py] is a class that
    occurs among the filtered class rows at least as often as every other
    class; the "N/A" sentinel appears exactly when no row holds a class. *)
Theorem most_common_is_modal (ties : tie_order) (current_year : Z)
        (filtered_df : DataFrame) (rows : list ClassRow) (ins : InsightSet) :
  rearranges ties ->
  App.insights ties current_year filtered_df rows = ret ins ->
  (dropna (map DataClass rows) = [] -> most_common_data_class ins = "N/A")
  /\ (dropna (map DataClass rows) <> [] ->
      In (most_common_data_class ins) (dropna (map DataClass rows))
      /\ forall c, count_of c (dropna (map DataClass rows))
                   <= count_of (most_common_data_class ins)
                               (dropna (map DataClass rows))).
Proof.
  intros Hties Hins. rewrite (App_insights_most_common _ _ _ _ _ Hins).
  unfold data_class_counts.
  destruct (value_counts ties (map DataClass rows)) as [|[k n] rest] eqn:Hvc.
  - apply (value_counts_nil ties _ Hties) in Hvc.
    split; [reflexivity | congruence].
  - destruct (value_counts_head_max _ _ _ _ _ Hties Hvc) as (Hk & Hn & Hmax).
    split.
    + intros Hnil. apply (value_counts_nil ties _ Hties) in Hnil. congruence.
    + intros _. cbn [fst]. split; [exact Hk|].
      intros c. rewrite <- Hn. apply Hmax.
Qed.

Lemma most_common_is_modal_witness :
  In "Passwords" (dropna (map DataClass (explode sample_df)))
  /\ forall c, count_of c (dropna (map DataClass (explode sample_df)))
               <= count_of "Passwords" (dropna (map DataClass (explode sample_df))).
Proof.
  apply (proj2 (most_common_is_modal first_seen_ties 2025 sample_df
                  (explode sample_df)
                  (mkInsights "Passwords" "C" 60000000 "decreasing")
                  first_seen_ties_rearranges eq_refl)).
  discriminate.
Defined.

(** ** Largest rows *)

Section FirstMax.

Context {A : Type} (key : A -> Z).

Lemma first_max_spec (a : A) (t : list A) :
  In (first_max key a t) (a :: t)
  /\ forall x, In x (a :: t) -> key x <= key (first_max key a t).
Proof.
  revert a. induction t as [|b t IH]; intros a.
  - cbn [first_max]. split; [left; reflexivity|].
    intros x [<-|[]]. lia.
  - cbn [first_max]. destruct (IH b) as [Hin Hmax].
    destruct (Z.leb_spec (key (first_max key b t)) (key a)) as [Hle|Hlt].
    + split; [left; reflexivity|].
      intros x [<-|Hx]; [lia|]. specialize (Hmax x Hx). lia.
    + split; [right; exact Hin|].
      intros x [<-|Hx]; [lia | apply Hmax; exact Hx].
Qed.

Lemma first_max_step (a b : A) (t : list A) :
  first_max key (if key a <? key b then b else a) t
  = if key (first_max key b t) <=? key a then a else first_max key b t.
Proof.
  destruct t as [|c t]; cbn [first_max].
  - destruct (Z.ltb_spec (key a) (key b)), (Z.leb_spec (key b) (key a));
      try reflexivity; lia.
  - set (m := first_max key c t).
    destruct (Z.ltb_spec (key a) (key b)).
    + destruct (Z.leb_spec (key m) (key b)).
      * destruct (Z.leb_spec (key b) (key a)); [lia | reflexivity].
      * destruct (Z.leb_spec (key m) (key a)); [lia | reflexivity].
    + destruct (Z.leb_spec (key m) (key b)).
      * destruct (Z.leb_spec (key b) (key a)); [|lia].
        destruct (Z.leb_spec (key m) (key a)); [reflexivity | lia].
      * reflexivity.
Qed.

Lemma argmax_by_first_max (a : A) (t : list A) :
  argmax_by key a t = first_max key a t.
Proof.
  revert a. induction t as [|b t IH]; intros a; [reflexivity|].
  cbn [argmax_by]. rewrite IH, first_max_step. reflexivity.
Qed.

Lemma sort_desc_head (a : A) (t : list A) :
  exists rest, sort_desc key (a :: t) = first_max key a t :: rest.
Proof.
  revert a. induction t as [|b t IH]; intros a.
  - exists []. reflexivity.
  - destruct (IH b) as [rest Hrest].
    change (sort_desc key (a :: b :: t))
      with (insert_desc key a (sort_desc key (b :: t))).
    rewrite Hrest. cbn [insert_desc first_max].
    destruct (key (first_max key b t) <=? key a); eexists; reflexivity.
Qed.

Lemma StronglySorted_app_inv (R : A -> A -> Prop) (l1 l2 : list A) :
  StronglySorted R (l1 ++ l2) ->
  StronglySorted R l1 /\ forall a b, In a l1 -> In b l2 -> R a b.
Proof.
  induction l1 as [|x t IH]; cbn [app]; intros H.
  - split; [constructor | intros a b []].
  - apply StronglySorted_inv in H. destruct H as [Ht Hall].
    destruct (IH Ht) as [Hs Hcross]. rewrite Forall_forall in Hall. split.
    + constructor; [exact Hs|]. apply Forall_forall. intros y Hy.
      apply Hall. apply in_or_app. left. exact Hy.
    + intros a b [<-|Ha] Hb; [|apply Hcross; assumption].
      apply Hall. apply in_or_app. right. exact Hb.
Qed.

End FirstMax.

Lemma Home_argmax_first_by (a : BreachRecord) (t : DataFrame) :
  Home.argmax_first a t = argmax_by PwnCount a t.
Proof.
  revert a. induction t as [|b t IH]; intros a; [reflexivity|].
  cbn [Home.argmax_first argmax_by]. apply IH.
Qed.

Lemma nlargest_one (r : BreachRecord) (t : DataFrame) :
  nlargest 1 (r :: t) = [first_max PwnCount r t].
Proof.
  unfold nlargest, head. destruct (sort_desc_head PwnCount r t) as [rest ->].
  reflexivity.
Qed.

(** X17. [nlargest(n, 'PwnCount')] returns min(n, number of rows) rows of the
    frame, largest first, and no row left out has more accounts than a row
    returned. *)
Theorem nlargest_top_rows (n : nat) (df : DataFrame) :
  List.length (nlargest n df) = Nat.min n (List.length df)
  /\ StronglySorted (fun a b => PwnCount a >= PwnCount b) (nlargest n df)
  /\ exists rest,
       Permutation df (nlargest n df ++ rest)
       /\ forall a b, In a (nlargest n df) -> In b rest ->
                      PwnCount b <= PwnCount a.
Proof.
  unfold nlargest, head.
  pose proof (sort_desc_sorted PwnCount df) as Hs.
  pose proof (sort_desc_perm PwnCount df) as Hp.
  rewrite <- (firstn_skipn n (sort_desc PwnCount df)) in Hs.
  apply StronglySorted_app_inv in Hs. destruct Hs as [Hs Hcross].
  split; [|split; [exact Hs|]].
  - rewrite length_firstn, (Permutation_length Hp). reflexivity.
  - exists (skipn n (sort_desc PwnCount df)). split.
    + rewrite firstn_skipn. apply Permutation_sym. exact Hp.
    + intros a b Ha Hb. specialize (Hcross a b Ha Hb). lia.
Qed.

(** X18. On a frame with at least one row the two dashboards name the same
    largest breach: the row [idxmax] points at in [Home.py] is the first row
    of [nlargest(1)] in [app.py], it belongs to the frame and no row has
    more accounts. *)
Theorem largest_breach_agrees (df : DataFrame) :
  df <> [] ->
  exists r,
    Home.idxmax_row df = ret r
    /\ iloc0 (nlargest 1 df) = ret r
    /\ In r df
    /\ forall r', In r' df -> PwnCount r' <= PwnCount r.
Proof.
  destruct df as [|a t]; [congruence|]. intros _.
  exists (first_max PwnCount a t).
  destruct (first_max_spec PwnCount a t) as [Hin Hmax].
  split; [|split; [|split; assumption]].
  - cbn [Home.idxmax_row]. rewrite Home_argmax_first_by, argmax_by_first_max.
    reflexivity.
  - rewrite nlargest_one. reflexivity.
Qed.

Lemma largest_breach_agrees_witness :
  exists r,
    Home.idxmax_row sample_df = ret r
    /\ iloc0 (nlargest 1 sample_df) = ret r
    /\ In r sample_df
    /\ forall r', In r' sample_df -> PwnCount r' <= PwnCount r.
Proof.
  apply largest_breach_agrees. discriminate.
Defined.

(** X19. Whenever there is a filtered record and a class row holding a
    class, the insight block of [Home.py] returns what the guarded block of
    [app.py] returns. *)
Theorem insights_agree_when_not_empty (ties : tie_order) (current_year : Z)
        (filtered_df : DataFrame) (rows : list ClassRow) :
  rearranges ties ->
  filtered_df <> [] ->
  dropna (map DataClass rows) <> [] ->
  exists ins,
    Home.insights ties current_year filtered_df rows = ret ins
    /\ App.insights ties current_year filtered_df rows = ret ins.
Proof.
  intros Hties Hdf Hrows.
  destruct filtered_df as [|a t]; [congruence|].
  unfold Home.insights, App.insights.
  destruct (data_class_counts ties rows) as [|top rest] eqn:Hc.
  - apply (value_counts_nil ties _ Hties) in Hc. congruence.
  - rewrite nlargest_one.
    cbn [iloc0 bind ret Home.idxmax_row App.empty negb].
    rewrite Home_argmax_first_by, argmax_by_first_max.
    eexists. split; reflexivity.
Qed.

Lemma insights_agree_when_not_empty_witness :
  exists ins,
    Home.insights first_seen_ties 2025 sample_df (explode sample_df) = ret ins
    /\ App.insights first_seen_ties 2025 sample_df (explode sample_df) = ret ins.
Proof.
  apply insights_agree_when_not_empty;
    [apply first_seen_ties_rearranges | discriminate | discriminate].
Defined.

(** ** Group tables *)

Lemma group_insert_sum (k : Z) (tbl : list (Z * Z)) :
  Series_sum (map snd (group_insert k tbl)) = Series_sum (map snd tbl) + 1.
Proof.
  induction tbl as [|[k' n] t IH]; [reflexivity|].
  cbn [group_insert]. destruct (k <? k'); [|destruct (k =? k')];
    cbn [map snd]; rewrite ?Series_sum_cons, ?IH; lia.
Qed.

Lemma group_insert_size_of (k k0 : Z) (tbl : list (Z * Z)) :
  group_size_of k (group_insert k0 tbl)
  = group_size_of k tbl + (if k =? k0 then 1 else 0).
Proof.
  induction tbl as [|[k' n] t IH]; [cbn; lia|].
  cbn [group_insert].
  destruct (Z.ltb_spec k0 k'); [|destruct (Z.eqb_spec k0 k')];
    cbn [group_size_of]; rewrite ?IH;
    destruct (Z.eqb_spec k k0), (Z.eqb_spec k k'); lia.
Qed.

Lemma group_insert_sorted (k : Z) (tbl : list (Z * Z)) :
  Sorted (fun a b => fst a < fst b) tbl ->
  Sorted (fun a b => fst a < fst b) (group_insert k tbl).
Proof.
  induction tbl as [|[k' n] t IH]; intros Hs; cbn [group_insert].
  - repeat constructor.
  - inversion Hs as [|? ? Ht Hhd]; subst.
    destruct (Z.ltb_spec k k').
    + constructor; [exact Hs | constructor; cbn; lia].
    + destruct (Z.eqb_spec k k').
      * constructor; [exact Ht|].
        destruct t as [|e2 t']; constructor. inversion Hhd; subst. cbn in *. lia.
      * constructor; [apply IH; exact Ht|].
        destruct t as [|[k2 n2] t']; cbn [group_insert].
        -- constructor. cbn. lia.
        -- inversion Hhd; subst. cbn in *.
           destruct (k <? k2); [|destruct (k =? k2)]; constructor; cbn; lia.
Qed.

Lemma group_insert_positive (k : Z) (tbl : list (Z * Z)) :
  Forall (fun e => 1 <= snd e) tbl ->
  Forall (fun e => 1 <= snd e) (group_insert k tbl).
Proof.
  induction tbl as [|[k' n] t IH]; intros H; cbn [group_insert].
  - repeat constructor. cbn. lia.
  - inversion H as [|? ? Hn Ht]; subst. cbn in Hn.
    destruct (k <? k'); [|destruct (k =? k')].
    + repeat constructor; cbn; auto; lia.
    + constructor; [cbn; lia | exact Ht].
    + constructor; [exact Hn | apply IH; exact Ht].
Qed.

Lemma groupby_size_fold (keys : list Z) (tbl : list (Z * Z)) :
  let out := fold_left (fun tbl k => group_insert k tbl) keys tbl in
  (Sorted (fun a b => fst a < fst b) tbl ->
   Sorted (fun a b => fst a < fst b) out)
  /\ (Forall (fun e => 1 <= snd e) tbl -> Forall (fun e => 1 <= snd e) out)
  /\ Series_sum (map snd out) = Series_sum (map snd tbl) + len keys
  /\ forall k, group_size_of k out = group_size_of k tbl + count_key k keys.
Proof.
  revert tbl. induction keys as [|k0 t IH]; intros tbl; cbn [fold_left].
  - unfold len. cbn. repeat split; auto; intros; lia.
  - destruct (IH (group_insert k0 tbl)) as (H1 & H2 & H3 & H4).
    split; [intros Hs; apply H1, group_insert_sorted, Hs|].
    split; [intros Hp; apply H2, group_insert_positive, Hp|].
    split.
    + rewrite H3, group_insert_sum. unfold len. cbn [List.length]. lia.
    + intros k. rewrite H4, group_insert_size_of. cbn [count_key]. lia.
Qed.

Lemma group_size_of_absent (k : Z) (tbl : list (Z * Z)) :
  Forall (fun e => k < fst e) tbl -> group_size_of k tbl = 0.
Proof.
  induction 1 as [|[k' n] t Hlt _ IH]; [reflexivity|].
  cbn [group_size_of]. cbn in Hlt. rewrite IH.
  destruct (Z.eqb_spec k k'); lia.
Qed.

Lemma group_size_of_In (k n : Z) (tbl : list (Z * Z)) :
  StronglySorted (fun a b => fst a < fst b) tbl ->
  In (k, n) tbl -> group_size_of k tbl = n.
Proof.
  induction 1 as [|[k' n'] t Ht IH Hall]; [intros []|].
  intros [[= -> ->]|Hin]; cbn [group_size_of].
  - rewrite Z.eqb_refl, (group_size_of_absent k t); [lia|].
    eapply Forall_impl; [|exact Hall]. intros e He. exact He.
  - rewrite Forall_forall in Hall. specialize (Hall _ Hin). cbn in Hall.
    destruct (Z.eqb_spec k k'); [lia|]. rewrite (IH Hin). lia.
Qed.

Lemma group_size_of_present (k : Z) (tbl : list (Z * Z)) :
  group_size_of k tbl <> 0 -> exists n, In (k, n) tbl.
Proof.
  induction tbl as [|[k' n'] t IH]; cbn [group_size_of]; [congruence|].
  destruct (Z.eqb_spec k k') as [->|_].
  - intros _. exists n'. left. reflexivity.
  - intros H. destruct IH as [n Hn]; [lia|]. exists n. right. exact Hn.
Qed.

Lemma count_key_nonneg (k : Z) (keys : list Z) : 0 <= count_key k keys.
Proof.
  induction keys as [|k' t IH]; cbn [count_key]; [lia|].
  destruct (k =? k'); lia.
Qed.

Lemma groupby_size_sorted (keys : list Z) :
  StronglySorted (fun a b => fst a < fst b) (groupby_size keys).
Proof.
  apply Sorted_StronglySorted; [intros x y z; lia|].
  apply (proj1 (groupby_size_fold keys [])). constructor.
Qed.

Lemma groupby_size_entry (keys : list Z) (k n : Z) :
  In (k, n) (groupby_size keys) <-> n = count_key k keys /\ 1 <= n.
Proof.
  destruct (groupby_size_fold keys []) as (_ & Hpos & _ & Hsize).
  specialize (Hpos (Forall_nil _)). specialize (Hsize k). cbn in Hsize.
  fold (groupby_size keys) in Hpos, Hsize. split.
  - intros Hin.
    rewrite (group_size_of_In k n _ (groupby_size_sorted keys) Hin) in Hsize.
    rewrite Forall_forall in Hpos. specialize (Hpos _ Hin). cbn in Hpos.
    split; lia.
  - intros [-> Hn].
    destruct (group_size_of_present k (groupby_size keys)) as [n Hin]; [lia|].
    rewrite (group_size_of_In k n _ (groupby_size_sorted keys) Hin) in Hsize.
    replace (count_key k keys) with n by lia. exact Hin.
Qed.

(** X20. [groupby(key).size()] lists the distinct keys in strictly ascending
    order, each with the number of rows that carry it, and the sizes add up
    to the number of rows. *)
Theorem groupby_size_counts (keys : list Z) :
  StronglySorted (fun a b => fst a < fst b) (groupby_size keys)
  /\ (forall k n, In (k, n) (groupby_size keys)
                  <-> n = count_key k keys /\ 1 <= n)
  /\ Series_sum (map snd (groupby_size keys)) = len keys.
Proof.
  split; [apply groupby_size_sorted|]. split; [apply groupby_size_entry|].
  destruct (groupby_size_fold keys []) as (_ & _ & Hsum & _). exact Hsum.
Qed.

Lemma Series_sum_le_max (l : list (Z * Z)) (m : Z) :
  (forall e, In e l -> snd e <= m) ->
  Series_sum (map snd l) <= len l * m.
Proof.
  unfold len. induction l as [|e t IH]; intros H; [cbn; lia|].
  cbn [map]. rewrite Series_sum_cons. cbn [List.length].
  assert (snd e <= m) by (apply H; left; reflexivity).
  assert (Series_sum (map snd t) <= Z.of_nat (List.length t) * m)
    by (apply IH; intros e' He'; apply H; right; exact He').
  lia.
Qed.

Lemma Series_sum_ge_len (l : list (Z * Z)) :
  Forall (fun e => 1 <= snd e) l -> len l <= Series_sum (map snd l).
Proof.
  unfold len. induction 1 as [|e t He _ IH]; [cbn; lia|].
  cbn [map]. rewrite Series_sum_cons. cbn [List.length]. lia.
Qed.

(** X21. On the timeline page the average number of breaches per year is
    computed exactly when the selection is not empty; it is then at least 1
    and at most the count of the peak year, which is the largest yearly
    count; on an empty selection the division raises. *)
Theorem yearly_avg_and_peak (filtered_df : DataFrame) :
  (filtered_df = [] ->
   TimelinePage.yearly_avg filtered_df = raise ZeroDivisionError
   /\ worst_year filtered_df = raise ValueError)
  /\ (filtered_df <> [] ->
      exists q y n,
        TimelinePage.yearly_avg filtered_df = ret q
        /\ worst_year filtered_df = ret (y, n)
        /\ n = count_key y (map BreachYear filtered_df)
        /\ (forall y', count_key y' (map BreachYear filtered_df) <= n)
        /\ (1 <= q <= inject_Z n)%Q).
Proof.
  split; [intros ->; split; reflexivity|].
  intros Hne. unfold TimelinePage.yearly_avg, worst_year, py_div,
    TimelinePage.yearly_breaches.
  set (keys := map BreachYear filtered_df).
  destruct (groupby_size_fold keys []) as (_ & Hpos & Hsum & _).
  specialize (Hpos (Forall_nil _)). cbn in Hsum.
  fold (groupby_size keys) in Hpos, Hsum.
  assert (Hlen : len keys = len filtered_df)
    by (unfold keys, len; rewrite length_map; reflexivity).
  assert (Hn0 : 1 <= len filtered_df)
    by (unfold len; destruct filtered_df; [congruence | cbn [List.length]; lia]).
  pose proof (Series_sum_ge_len _ Hpos) as Hge.
  destruct (groupby_size keys) as [|e t] eqn:Hg;
    [cbn in Hsum; lia|].
  assert (Hg1 : 1 <= len (e :: t)) by (unfold len; cbn [List.length]; lia).
  destruct (Z.eqb_spec (len (e :: t)) 0) as [|_]; [lia|].
  cbn [idxmax_by]. rewrite argmax_by_first_max.
  destruct (first_max_spec snd e t) as [Hin Hmax].
  destruct (first_max snd e t) as [y n] eqn:Hfm. cbn [snd] in Hmax.
  exists (inject_Z (len filtered_df) / inject_Z (len (e :: t)))%Q, y, n.
  split; [reflexivity|]. split; [reflexivity|].
  assert (Hentry : n = count_key y keys /\ 1 <= n)
    by (apply groupby_size_entry; rewrite Hg; exact Hin).
  split; [apply Hentry|]. split.
  - intros y'. pose proof (count_key_nonneg y' keys) as Hnn.
    destruct (Z.eq_dec (count_key y' keys) 0) as [->|Hnz]; [lia|].
    assert (Hin' : In (y', count_key y' keys) (e :: t))
      by (rewrite <- Hg; apply groupby_size_entry; split; [reflexivity | lia]).
    apply (Hmax _ Hin').
  - pose proof (Series_sum_le_max (e :: t) n Hmax) as Hle.
    assert (Hq : (0 < inject_Z (len (e :: t)))%Q)
      by (change 0%Q with (inject_Z 0); rewrite <- Zlt_Qlt; lia).
    split.
    + apply Qle_shift_div_l; [exact Hq|]. rewrite Qmult_1_l.
      rewrite <- Zle_Qle. lia.
    + apply Qle_shift_div_r; [exact Hq|]. rewrite <- inject_Z_mult.
      rewrite <- Zle_Qle. lia.
Qed.

Lemma yearly_avg_and_peak_witness :
  exists q y n,
    TimelinePage.yearly_avg sample_df = ret q
    /\ worst_year sample_df = ret (y, n)
    /\ n = count_key y (map BreachYear sample_df)
    /\ (forall y', count_key y' (map BreachYear sample_df) <= n)
    /\ (1 <= q <= inject_Z n)%Q.
Proof.
  apply (proj2 (yearly_avg_and_peak sample_df)). discriminate.
Defined.
